(** * razorstats: inventory consistency of the barbershop point of sale

    A shallow embedding of the parts of the repository that decide how stock
    moves:

    - the SQL schema of [supabase/migrations]: the tables [transactions],
      [transaction_items], [inventory_items] and [inventory_movements], the
      check constraint [check_item_type] and the after-insert trigger
      [update_inventory_on_product_sale] (module [Schema]);
    - the client screens that write to those tables through the supabase
      client: [handleMovement] and [lowStockItems] of [pages/Inventory.tsx]
      (module [InventoryPage]), [calculateTotal] and [handleSubmit] of
      [pages/NewTransaction.tsx] (module [NewTransactionPage]) and the
      low-stock filter of the dashboard (module [DashboardPage]).

    Beyond these, the file follows the code around them: the controls of
    the new-transaction form that build the list of lines
    ([NewTransactionScreen]), the dialog that adds an inventory item and the
    card of an item ([InventoryScreen]), the low-stock list and the ranking
    of barbers of the dashboard ([DashboardScreen]), the totals of the report
    ([ReportsScreen]), and the two paths to the stock side by side ([Till]).

    Numbers.  The quantity, price and total columns are [DECIMAL(10,2)]:
    every value a table holds is a multiple of 0.01.  A decimal is
    represented exactly, as its count of hundredths in [Z]; the [INTEGER]
    column [transaction_items.quantity] is a plain [Z], and the cast from
    [INTEGER] to [DECIMAL] is [of_int].

    The quantity of the movement dialog is not bound to hundredths: the
    field is read with [parseFloat] and [handleMovement] only asks that it
    be positive.  It is a [number], held exactly as a rational; the sum and
    the difference that [handleMovement] takes with the quantity of the card
    are exact, and the two columns the results are written to round each
    value they are given to two decimals, a tie away from zero
    ([numeric_10_2]).  The ten-digit precision limit of the columns and the
    rounding error of the arithmetic of JavaScript doubles are outside the
    model, as is [NaN].

    Backend.  Only the four tables above are modelled.  Row-level security
    and the tables of barbers, services, payment methods and profiles belong
    to the hosted backend; a call that the backend refuses for a reason the
    four tables do not show is, for the client, a round trip that fails. *)

From stdpp Require Import base option list sorting gmap strings.
From Stdlib Require Import ZArith QArith Lia Lqa.

Open Scope string_scope.
Open Scope list_scope.
Open Scope Z_scope.

(** ** Results of fallible operations *)

Inductive result (E A : Type) : Type :=
| Ok (a : A)
| Err (e : E).
Arguments Ok {E A} a.
Arguments Err {E A} e.

#[global] Instance result_ret {E} : MRet (result E) := λ A a, Ok a.

#[global] Instance result_bind {E} : MBind (result E) :=
  λ A B k r, match r with
             | Ok a => k a
             | Err e => Err e
             end.

Definition is_ok {E A} (r : result E A) : bool :=
  match r with Ok _ => true | Err _ => false end.

(** ** The database schema *)

Module Schema.

Abbreviation uuid := string.

(** [DECIMAL(10,2)], as a count of hundredths. *)
Abbreviation decimal := Z.

(** The cast of an [INTEGER] to [DECIMAL(10,2)]. *)
Definition of_int (n : Z) : decimal := 100 * n.

(** A JavaScript number as the client computes with it and sends it: any
    value, not only a multiple of 0.01. *)
Abbreviation number := Q.

(** A stored decimal as the number the client reads. *)
Definition of_decimal (x : decimal) : number := x # 100.

(** The value a [DECIMAL(10,2)] column stores for the number it is given:
    the nearest multiple of 0.01, a tie going away from zero. *)
Definition numeric_10_2 (x : number) : decimal :=
  let n := Qnum x * 100 in
  let d := QDen x in
  if 0 <=? n then (2 * n + d) / (2 * d) else - ((2 * - n + d) / (2 * d)).

(** [x < y] on numbers. *)
Definition Qlt_bool (x y : number) : bool :=
  Qnum x * QDen y <? Qnum y * QDen x.

(** The number has at most two decimals: the column stores it as it is. *)
Definition two_decimals (x : number) : bool :=
  Qeq_bool (of_decimal (numeric_10_2 x)) x.

(** [CREATE TYPE transaction_item_type AS ENUM ('SERVICE', 'PRODUCT')] *)
Inductive transaction_item_type := SERVICE | PRODUCT.

(** [CREATE TYPE movement_type AS ENUM ('in', 'out')] *)
Inductive movement_type := movement_in | movement_out.

#[global] Instance transaction_item_type_eq_dec : EqDecision transaction_item_type.
Proof. solve_decision. Defined.

#[global] Instance movement_type_eq_dec : EqDecision movement_type.
Proof. solve_decision. Defined.

(** Rows.  A nullable column is an [option]; the primary key of
    [transactions] and of [inventory_items] is the key of the table's map,
    the generated keys of the two append-only tables are left out. *)

Record transactions_row := {
  t_barber_id : uuid;
  t_total : decimal;
  t_payment_method_id : uuid;
  t_notes : option string;
  t_created_by : uuid
}.

Record transaction_items_row := {
  ti_transaction_id : uuid;
  ti_type : transaction_item_type;
  ti_service_id : option uuid;
  ti_inventory_item_id : option uuid;
  ti_price : decimal;
  ti_quantity : Z;
  ti_commission : decimal
}.

Record inventory_items_row := {
  inv_name : string;
  inv_sku : option string;
  inv_quantity : decimal;
  inv_unit : string;
  inv_min_quantity : option decimal
}.

Record inventory_movements_row := {
  mv_item_id : uuid;
  mv_type : movement_type;
  mv_quantity : decimal;
  mv_notes : option string;
  mv_created_by : uuid
}.

Record db := {
  transactions : gmap string transactions_row;
  transaction_items : list transaction_items_row;
  inventory_items : gmap string inventory_items_row;
  inventory_movements : list inventory_movements_row
}.

Definition empty_db : db :=
  {| transactions := ∅; transaction_items := [];
     inventory_items := ∅; inventory_movements := [] |}.

Inductive db_error :=
| check_violation (constraint : string)
| foreign_key_violation (column : string)
| not_null_violation (column : string)
| unique_violation (column : string).

Definition is_null {A} (c : option A) : bool :=
  match c with None => true | Some _ => false end.

Definition is_not_null {A} (c : option A) : bool := negb (is_null c).

(** [[
CHECK (
  (type = 'SERVICE' AND service_id IS NOT NULL AND inventory_item_id IS NULL) OR
  (type = 'PRODUCT' AND inventory_item_id IS NOT NULL AND service_id IS NULL)
)
]]
    [type] is [NOT NULL] and [IS NULL] never yields unknown, so the
    expression is two-valued. *)
Definition check_item_type (r : transaction_items_row) : bool :=
  (bool_decide (ti_type r = SERVICE)
     && is_not_null (ti_service_id r) && is_null (ti_inventory_item_id r))
  || (bool_decide (ti_type r = PRODUCT)
     && is_not_null (ti_inventory_item_id r) && is_null (ti_service_id r)).

(** A row stored before the migration, when [service_id] was [NOT NULL], as
    [ALTER TABLE ... ADD COLUMN] completes it: [type] takes its default
    ['SERVICE'], [inventory_item_id] is null, [commission] takes [0]. *)
Definition migrated (transaction_id service_id : uuid) (price : decimal) (quantity : Z)
    : transaction_items_row :=
  {| ti_transaction_id := transaction_id; ti_type := SERVICE;
     ti_service_id := Some service_id; ti_inventory_item_id := None;
     ti_price := price; ti_quantity := quantity; ti_commission := 0 |}.

(** The invariant of the data model as the specification words it: a
    SERVICE line has a service reference and no inventory reference, a
    PRODUCT line has an inventory reference and no service reference. *)
Definition kind_matches_references (r : transaction_items_row) : Prop :=
  match ti_type r with
  | SERVICE => is_Some (ti_service_id r) ∧ ti_inventory_item_id r = None
  | PRODUCT => is_Some (ti_inventory_item_id r) ∧ ti_service_id r = None
  end.

Definition set_inv_quantity (q : decimal) (r : inventory_items_row) : inventory_items_row :=
  {| inv_name := inv_name r; inv_sku := inv_sku r; inv_quantity := q;
     inv_unit := inv_unit r; inv_min_quantity := inv_min_quantity r |}.

(** [UPDATE inventory_items SET quantity = f(quantity) WHERE id = id]: the
    rows that do not match stay as they are, and so does the table when no
    row matches. *)
Definition update_quantity (f : decimal → decimal) (id : uuid) (d : db) : db :=
  {| transactions := transactions d;
     transaction_items := transaction_items d;
     inventory_items :=
       alter (λ r, set_inv_quantity (f (inv_quantity r)) r) id (inventory_items d);
     inventory_movements := inventory_movements d |}.

(** [INSERT INTO inventory_movements]: [item_id] references
    [inventory_items(id)]. *)
Definition insert_movement (r : inventory_movements_row) (d : db) : result db_error db :=
  match inventory_items d !! mv_item_id r with
  | None => Err (foreign_key_violation "item_id")
  | Some _ =>
      Ok {| transactions := transactions d;
            transaction_items := transaction_items d;
            inventory_items := inventory_items d;
            inventory_movements := inventory_movements d ++ [r] |}
  end.

(** The body of the trigger function:
[[
IF NEW.type = 'PRODUCT' AND NEW.inventory_item_id IS NOT NULL THEN
  UPDATE inventory_items SET quantity = quantity - NEW.quantity
  WHERE id = NEW.inventory_item_id;
  INSERT INTO inventory_movements (item_id, type, quantity, created_by, notes)
  VALUES (NEW.inventory_item_id, 'out', NEW.quantity,
          (SELECT created_by FROM transactions WHERE id = NEW.transaction_id),
          'Venda automática - Transaction ID: ' || NEW.transaction_id);
END IF;
RETURN NEW;
]]
    The scalar subquery is null when no transaction matches, and
    [inventory_movements.created_by] is [NOT NULL]. *)
Definition update_inventory_on_product_sale
    (NEW : transaction_items_row) (d : db) : result db_error db :=
  match ti_type NEW, ti_inventory_item_id NEW with
  | PRODUCT, Some item =>
      let d1 := update_quantity (λ quantity, quantity - of_int (ti_quantity NEW)) item d in
      match t_created_by <$> transactions d1 !! ti_transaction_id NEW with
      | None => Err (not_null_violation "created_by")
      | Some creator =>
          insert_movement
            {| mv_item_id := item;
               mv_type := movement_out;
               mv_quantity := of_int (ti_quantity NEW);
               mv_notes := Some ("Venda automática - Transaction ID: "
                                   +:+ ti_transaction_id NEW);
               mv_created_by := creator |} d1
      end
  | _, _ => Ok d
  end.

(** One row of [INSERT INTO transaction_items]: the check constraint, the
    foreign keys to [transactions] and [inventory_items] (the one to
    [services] is the backend's), the row itself, then the trigger
    [AFTER INSERT ... FOR EACH ROW]. *)
Definition insert_transaction_item
    (r : transaction_items_row) (d : db) : result db_error db :=
  if negb (check_item_type r) then Err (check_violation "check_item_type")
  else if is_null (transactions d !! ti_transaction_id r)
  then Err (foreign_key_violation "transaction_id")
  else if match ti_inventory_item_id r with
          | Some item => is_null (inventory_items d !! item)
          | None => false
          end
  then Err (foreign_key_violation "inventory_item_id")
  else
    update_inventory_on_product_sale r
      {| transactions := transactions d;
         transaction_items := transaction_items d ++ [r];
         inventory_items := inventory_items d;
         inventory_movements := inventory_movements d |}.

(** A multi-row insert is one statement: a row that fails rejects them all. *)
Fixpoint insert_transaction_items
    (rows : list transaction_items_row) (d : db) : result db_error db :=
  match rows with
  | [] => Ok d
  | r :: rows => d1 ← insert_transaction_item r d; insert_transaction_items rows d1
  end.

(** [INSERT INTO transactions], [id] being the key the row receives. *)
Definition insert_transaction (id : uuid) (r : transactions_row) (d : db) : result db_error db :=
  match transactions d !! id with
  | Some _ => Err (unique_violation "id")
  | None =>
      Ok {| transactions := <[id := r]> (transactions d);
            transaction_items := transaction_items d;
            inventory_items := inventory_items d;
            inventory_movements := inventory_movements d |}
  end.

(** [INSERT INTO inventory_items]. *)
Definition insert_inventory_item (id : uuid) (r : inventory_items_row) (d : db) : result db_error db :=
  match inventory_items d !! id with
  | Some _ => Err (unique_violation "id")
  | None =>
      Ok {| transactions := transactions d;
            transaction_items := transaction_items d;
            inventory_items := <[id := r]> (inventory_items d);
            inventory_movements := inventory_movements d |}
  end.

(** [DELETE FROM transactions WHERE id = id]; [transaction_items] references
    it [ON DELETE CASCADE]. *)
Definition delete_transaction (id : uuid) (d : db) : db :=
  {| transactions := delete id (transactions d);
     transaction_items :=
       filter (λ r, ti_transaction_id r ≠ id) (transaction_items d);
     inventory_items := inventory_items d;
     inventory_movements := inventory_movements d |}.

(** The statements the application sends. *)
Inductive statement :=
| insert_into_transactions (id : uuid) (row : transactions_row)
| insert_into_transaction_items (rows : list transaction_items_row)
| insert_into_inventory_items (id : uuid) (row : inventory_items_row)
| insert_into_inventory_movements (row : inventory_movements_row)
| update_inventory_items_set_quantity (quantity : decimal) (id : uuid)
| delete_from_transactions (id : uuid).

Definition exec (s : statement) (d : db) : result db_error db :=
  match s with
  | insert_into_transactions id row => insert_transaction id row d
  | insert_into_transaction_items rows => insert_transaction_items rows d
  | insert_into_inventory_items id row => insert_inventory_item id row d
  | insert_into_inventory_movements row => insert_movement row d
  | update_inventory_items_set_quantity q id => Ok (update_quantity (λ _, q) id d)
  | delete_from_transactions id => Ok (delete_transaction id d)
  end.

(** The databases the application can produce: from the empty one, by
    accepted statements. *)
Inductive reachable : db → Prop :=
| reachable_empty : reachable empty_db
| reachable_exec s d d' : reachable d → exec s d = Ok d' → reachable d'.

End Schema.

(** ** The supabase client

    Every call of the client is one round trip.  It fails when the link is
    down or when the database rejects the statement, and then the database is
    as it was before the call.  What earlier calls wrote stays written: the
    screens open no transaction around their calls. *)

Module Client.
Import Schema.

Inductive error :=
| rejected (e : db_error)
| unreachable.

(** [store] is the database, [sent] the statements issued so far, oldest
    first, and [link] tells for each coming round trip whether it gets
    through to the four tables (it does once the list is used up). *)
Record world := {
  store : db;
  sent : list statement;
  link : list bool
}.

Definition client (A : Type) : Type := world → result error A * world.

#[global] Instance client_ret : MRet client := λ A a w, (Ok a, w).

(** A thrown error skips the rest of the handler; the world stays as the
    calls before it left it. *)
#[global] Instance client_bind : MBind client :=
  λ A B k m w, match m w with
               | (Ok a, w1) => k a w1
               | (Err e, w1) => (Err e, w1)
               end.

(** [try { m } catch (error) { h error }] *)
Definition try_catch {A} (m : client A) (h : error → client A) : client A :=
  λ w, match m w with
       | (Ok a, w1) => (Ok a, w1)
       | (Err e, w1) => h e w1
       end.

(** Whether the next round trip reaches the database. *)
Definition up (l : list bool) : bool :=
  match l with
  | [] => true
  | b :: _ => b
  end.

(** [const { error } = await supabase.from(..)...; if (error) throw error] *)
Definition supabase (s : statement) : client () :=
  λ w,
    let w1 := {| store := store w; sent := sent w ++ [s]; link := tail (link w) |} in
    if up (link w) then
      match exec s (store w) with
      | Ok d => (Ok (), {| store := d; sent := sent w1; link := link w1 |})
      | Err e => (Err (rejected e), w1)
      end
    else (Err unreachable, w1).

(** What the screen shows when a handler ends. *)
Inductive toast :=
| toast_success (message : string)
| toast_error (message : string)
| toast_error_message (e : error) (fallback : string).

Definition is_success (t : toast) : bool :=
  match t with toast_success _ => true | _ => false end.

End Client.

(** ** pages/Inventory.tsx *)

Module InventoryPage.
Import Schema Client.

Record InventoryItem := {
  id : uuid;
  name : string;
  sku : option string;
  quantity : decimal;
  unit : string;
  min_quantity : option decimal
}.

(** The [movement] state of the dialog.  The quantity is what
    [parseFloat(e.target.value)] made of the field: the input stands in no
    form, so its [step="0.01"] is not enforced. *)
Record Movement := {
  type : movement_type;
  m_quantity : number;
  notes : string
}.

(** [[
const handleMovement = async () => {
  if (!selectedItem || movement.quantity <= 0) {
    toast.error('Preencha todos os campos'); return; }
  try {
    const newQuantity = movement.type === 'in'
      ? selectedItem.quantity + movement.quantity
      : selectedItem.quantity - movement.quantity;
    if (newQuantity < 0) {
      toast.error('Quantidade insuficiente em estoque'); return; }
    ... insert into inventory_movements; if (movementError) throw movementError;
    ... update inventory_items set quantity = newQuantity where id = selectedItem.id;
    if (updateError) throw updateError;
    toast.success('Movimentação registrada com sucesso!'); ...
  } catch (error) {
    toast.error(error.message || 'Erro ao registrar movimentação'); }
};
]]
    Both columns written are [DECIMAL(10,2)]: the database stores
    [movement.quantity] and [newQuantity] each rounded to two decimals. *)
Definition handleMovement
    (selectedItem : option InventoryItem) (movement : Movement) (user : uuid)
    : client toast :=
  match selectedItem with
  | None => mret (toast_error "Preencha todos os campos")
  | Some selectedItem =>
      if Qle_bool (m_quantity movement) 0
      then mret (toast_error "Preencha todos os campos")
      else
        try_catch
          (let newQuantity :=
             match type movement with
             | movement_in => (of_decimal (quantity selectedItem) + m_quantity movement)%Q
             | movement_out => (of_decimal (quantity selectedItem) - m_quantity movement)%Q
             end in
           if Qlt_bool newQuantity 0
           then mret (toast_error "Quantidade insuficiente em estoque")
           else
             supabase (insert_into_inventory_movements
                         {| mv_item_id := id selectedItem;
                            mv_type := type movement;
                            mv_quantity := numeric_10_2 (m_quantity movement);
                            mv_notes := Some (notes movement);
                            mv_created_by := user |}) ;;
             supabase (update_inventory_items_set_quantity
                         (numeric_10_2 newQuantity) (id selectedItem)) ;;
             mret (toast_success "Movimentação registrada com sucesso!"))
          (λ e, mret (toast_error_message e "Erro ao registrar movimentação"))
  end.

(** A number or null used as a condition: [null], [0] are falsy. *)
Definition truthy (n : option decimal) : bool :=
  match n with
  | None => false
  | Some v => negb (v =? 0)
  end.

(** [item.min_quantity && item.quantity <= item.min_quantity], as the
    condition of [filter]. *)
Definition is_low_stock (item : InventoryItem) : bool :=
  match min_quantity item with
  | Some m => truthy (min_quantity item) && (quantity item <=? m)
  | None => false
  end.

(** [const lowStockItems = items.filter(item => item.min_quantity &&
    item.quantity <= item.min_quantity)] *)
Definition lowStockItems (items : list InventoryItem) : list InventoryItem :=
  filter (λ item, is_low_stock item = true) items.

End InventoryPage.

(** ** pages/NewTransaction.tsx *)

Module NewTransactionPage.
Import Schema Client.

Record TransactionItem := {
  type : transaction_item_type;
  serviceId : option uuid;
  productId : option uuid;
  quantity : Z;
  price : decimal;
  commission : decimal
}.

(** The state of the form. *)
Record Form := {
  selectedBarberId : string;
  selectedPaymentMethodId : string;
  items : list TransactionItem;
  notes : string
}.

(** [items.reduce((sum, item) => sum + (item.price * item.quantity), 0)] *)
Definition calculateTotal (items : list TransactionItem) : decimal :=
  fold_left (λ sum item, sum + price item * quantity item) items 0.

(** [items.reduce((sum, item) => sum + (item.commission * item.quantity), 0)] *)
Definition calculateCommission (items : list TransactionItem) : decimal :=
  fold_left (λ sum item, sum + commission item * quantity item) items 0.

(** [[
items.map(item => ({
  transaction_id: transaction.id,
  type: item.type,
  service_id: item.type === 'SERVICE' ? item.serviceId : null,
  inventory_item_id: item.type === 'PRODUCT' ? item.productId : null,
  price: item.price, quantity: item.quantity, commission: item.commission }))
]] *)
Definition itemsToInsert (transaction_id : uuid) (items : list TransactionItem)
    : list transaction_items_row :=
  map (λ item,
         {| ti_transaction_id := transaction_id;
            ti_type := type item;
            ti_service_id := if bool_decide (type item = SERVICE) then serviceId item else None;
            ti_inventory_item_id := if bool_decide (type item = PRODUCT) then productId item else None;
            ti_price := price item;
            ti_quantity := quantity item;
            ti_commission := commission item |})
      items.

(** An empty string used as a condition is falsy. *)
Definition empty (s : string) : bool := bool_decide (s = "").

(** [[
const handleSubmit = async (e) => {
  if (!selectedBarberId || !selectedPaymentMethodId || items.length === 0) {
    toast.error('Preencha todos os campos obrigatórios'); return; }
  try {
    const total = calculateTotal();
    const { data: transaction, error: transactionError } = await supabase
      .from('transactions')
      .insert({ barber_id, payment_method_id, total, notes, created_by: user!.id })
      .select().single();
    if (transactionError) throw transactionError;
    const itemsToInsert = items.map(...);
    const { error: itemsError } = await supabase
      .from('transaction_items').insert(itemsToInsert);
    if (itemsError) throw itemsError;
    toast.success('Transação registrada com sucesso!'); navigate('/');
  } catch (error) {
    toast.error(error.message || 'Erro ao registrar transação'); }
};
]]
    [gen_random_uuid] is the key the database gives the new transaction. *)
Definition handleSubmit (form : Form) (user : uuid) (gen_random_uuid : uuid) : client toast :=
  if empty (selectedBarberId form) || empty (selectedPaymentMethodId form)
     || bool_decide (length (items form) = 0%nat)
  then mret (toast_error "Preencha todos os campos obrigatórios")
  else
    try_catch
      (let total := calculateTotal (items form) in
       supabase (insert_into_transactions gen_random_uuid
                   {| t_barber_id := selectedBarberId form;
                      t_total := total;
                      t_payment_method_id := selectedPaymentMethodId form;
                      t_notes := Some (notes form);
                      t_created_by := user |}) ;;
       supabase (insert_into_transaction_items
                   (itemsToInsert gen_random_uuid (items form))) ;;
       mret (toast_success "Transação registrada com sucesso!"))
      (λ e, mret (toast_error_message e "Erro ao registrar transação")).

End NewTransactionPage.

(** ** The dashboard *)

Module DashboardPage.
Import Schema.

(** A row of [select('name, quantity, min_quantity')]. *)
Record StockRow := {
  name : string;
  quantity : decimal;
  min_quantity : option decimal
}.

(** [Number(x)] of a number or null: [Number(null)] is [0]. *)
Definition Number (x : option decimal) : decimal := default 0 x.

(** The filter of [loadLowStockItems]:
    [allItems.filter(item => Number(item.quantity) <= Number(item.min_quantity))];
    the screen then sorts the result by quantity and keeps five rows. *)
Definition lowStock (allItems : list StockRow) : list StockRow :=
  filter (λ item, quantity item ≤ Number (min_quantity item)) allItems.

End DashboardPage.

(** ** Auxiliary notions and a sample shop *)

Module Notions.
Import Schema Client InventoryPage.

(** The row as the table holds it when the trigger runs. *)
Definition with_item (r : transaction_items_row) (d : db) : db :=
  {| transactions := transactions d;
     transaction_items := transaction_items d ++ [r];
     inventory_items := inventory_items d;
     inventory_movements := inventory_movements d |}.

(** The movement row the trigger writes for the line [r]. *)
Definition sale_movement (r : transaction_items_row) (item creator : uuid)
    : inventory_movements_row :=
  {| mv_item_id := item;
     mv_type := movement_out;
     mv_quantity := of_int (ti_quantity r);
     mv_notes := Some ("Venda automática - Transaction ID: " +:+ ti_transaction_id r);
     mv_created_by := creator |}.

(** The number of product lines among [rows]. *)
Definition product_lines (rows : list transaction_items_row) : nat :=
  length (filter (λ r, ti_type r = PRODUCT) rows).

(** The card of a stored row, as [loadItems] fetches it. *)
Definition item_of_row (i : uuid) (r : inventory_items_row) : InventoryItem :=
  {| id := i; name := inv_name r; sku := inv_sku r; quantity := inv_quantity r;
     unit := inv_unit r; min_quantity := inv_min_quantity r |}.

(** The operator picks the card of item [i] from a freshly loaded list. *)
Definition select_item (i : uuid) (d : db) : option InventoryItem :=
  item_of_row i <$> inventory_items d !! i.

(** A run of movements on item [i]: each one is entered against the card as
    reloaded after the one before, and the run stops at the first movement
    that is not recorded. *)
Fixpoint record_movements (i : uuid) (user : uuid) (ms : list Movement) (w : world)
    : bool * world :=
  match ms with
  | [] => (true, w)
  | m :: ms =>
      match handleMovement (select_item i (store w)) m user w with
      | (Ok t, w1) =>
          if is_success t then record_movements i user ms w1 else (false, w1)
      | (Err _, w1) => (false, w1)
      end
  end.

(** The signed quantity of a movement row: [in] counts up, [out] down. *)
Definition signed (r : inventory_movements_row) : Z :=
  match mv_type r with
  | movement_in => mv_quantity r
  | movement_out => - mv_quantity r
  end.

Definition movements_of (i : uuid) (d : db) : list inventory_movements_row :=
  filter (λ r, mv_item_id r = i) (inventory_movements d).

Definition signed_sum (rows : list inventory_movements_row) : Z :=
  foldr (λ r acc, signed r + acc) 0 rows.

(** The [newQuantity] that [handleMovement] computes for the card [it]. *)
Definition newQuantity (it : InventoryItem) (m : Movement) : number :=
  match type m with
  | movement_in => (of_decimal (quantity it) + m_quantity m)%Q
  | movement_out => (of_decimal (quantity it) - m_quantity m)%Q
  end.

(** The quantity the column [inventory_items.quantity] stores for it. *)
Definition candidate (it : InventoryItem) (m : Movement) : decimal :=
  numeric_10_2 (newQuantity it m).

(** The row [inventory_movements] stores for the insert of
    [handleMovement]. *)
Definition manual_movement (it : InventoryItem) (m : Movement) (user : uuid)
    : inventory_movements_row :=
  {| mv_item_id := id it; mv_type := type m;
     mv_quantity := numeric_10_2 (m_quantity m);
     mv_notes := Some (notes m); mv_created_by := user |}.

(** The next [n] round trips reach the database. *)
Definition round_trips_reach (n : nat) (w : world) : Prop :=
  Forall (λ b, b = true) (take n (link w)).

(** The database with the movement [r] appended and nothing else changed. *)
Definition with_movement (r : inventory_movements_row) (d : db) : db :=
  {| transactions := transactions d;
     transaction_items := transaction_items d;
     inventory_items := inventory_items d;
     inventory_movements := inventory_movements d ++ [r] |}.

(** The database with the quantity of item [i] set to [q]. *)
Definition with_quantity (i : uuid) (q : decimal) (d : db) : db :=
  {| transactions := transactions d;
     transaction_items := transaction_items d;
     inventory_items := alter (set_inv_quantity q) i (inventory_items d);
     inventory_movements := inventory_movements d |}.

(** How a movement that passed both guards can end: the insert fails and
    nothing is written; the insert is stored and the update fails; or both
    are stored. *)
Inductive movement_outcome (it : InventoryItem) (m : Movement) (user : uuid) (w : world)
    : toast → world → Prop :=
| insert_failed e :
    movement_outcome it m user w
      (toast_error_message e "Erro ao registrar movimentação")
      {| store := store w;
         sent := sent w ++ [insert_into_inventory_movements (manual_movement it m user)];
         link := tail (link w) |}
| update_failed :
    is_Some (inventory_items (store w) !! id it) →
    up (link w) = true →
    up (tail (link w)) = false →
    movement_outcome it m user w
      (toast_error_message unreachable "Erro ao registrar movimentação")
      {| store := with_movement (manual_movement it m user) (store w);
         sent := sent w ++ [insert_into_inventory_movements (manual_movement it m user);
                            update_inventory_items_set_quantity (candidate it m) (id it)];
         link := tail (tail (link w)) |}
| recorded :
    is_Some (inventory_items (store w) !! id it) →
    up (link w) = true →
    up (tail (link w)) = true →
    movement_outcome it m user w
      (toast_success "Movimentação registrada com sucesso!")
      {| store := with_quantity (id it) (candidate it m)
                    (with_movement (manual_movement it m user) (store w));
         sent := sent w ++ [insert_into_inventory_movements (manual_movement it m user);
                            update_inventory_items_set_quantity (candidate it m) (id it)];
         link := tail (tail (link w)) |}.

(** The stored quantity of item [i], if it exists. *)
Definition stock (i : uuid) (d : db) : option decimal :=
  inv_quantity <$> inventory_items d !! i.

End Notions.

(** A shop with one open transaction [t1] entered by [ana] and one product,
    a pomade with two units on the shelf. *)
Module Shop.
Import Schema Client.

Definition t1 : transactions_row :=
  {| t_barber_id := "barber-1"; t_total := 0; t_payment_method_id := "pix";
     t_notes := None; t_created_by := "ana" |}.

Definition pomade (q : decimal) (m : option decimal) : inventory_items_row :=
  {| inv_name := "Pomada"; inv_sku := None; inv_quantity := q;
     inv_unit := "un"; inv_min_quantity := m |}.

Definition wax : inventory_items_row :=
  {| inv_name := "Cera"; inv_sku := Some "C-1"; inv_quantity := of_int 7;
     inv_unit := "un"; inv_min_quantity := Some (of_int 1) |}.

Definition shelf (q : decimal) : db :=
  {| transactions := {[ "t1" := t1 ]};
     transaction_items := [];
     inventory_items := {[ "p1" := pomade q (Some 0); "p2" := wax ]};
     inventory_movements := [] |}.

(** Five pomades sold in [t1]. *)
Definition sale : transaction_items_row :=
  {| ti_transaction_id := "t1"; ti_type := PRODUCT; ti_service_id := None;
     ti_inventory_item_id := Some "p1"; ti_price := 2500; ti_quantity := 5;
     ti_commission := 500 |}.

(** The shelf after [sale]: the line is stored, the pomade is five units
    down, and the trigger has written one movement. *)
Definition after_sale (q : decimal) : db :=
  {| transactions := {[ "t1" := t1 ]};
     transaction_items := [sale];
     inventory_items := {[ "p1" := pomade (q - of_int 5) (Some 0); "p2" := wax ]};
     inventory_movements :=
       [ {| mv_item_id := "p1"; mv_type := movement_out; mv_quantity := of_int 5;
            mv_notes := Some "Venda automática - Transaction ID: t1";
            mv_created_by := "ana" |} ] |}.

(** The inventory screen over the database [d], nothing sent yet, the
    coming round trips reaching the database as [l] tells. *)
Definition desk (d : db) (l : list bool) : world :=
  {| store := d; sent := []; link := l |}.

(** Movements an operator may enter, of a quantity in hundredths. *)
Definition stock_in (q : decimal) : InventoryPage.Movement :=
  {| InventoryPage.type := movement_in; InventoryPage.m_quantity := of_decimal q;
     InventoryPage.notes := "reposição" |}.

Definition stock_out (q : decimal) : InventoryPage.Movement :=
  {| InventoryPage.type := movement_out; InventoryPage.m_quantity := of_decimal q;
     InventoryPage.notes := "uso interno" |}.

(** A withdrawal of half a hundredth, and a delivery of less than that. *)
Definition half_cent_out : InventoryPage.Movement :=
  {| InventoryPage.type := movement_out; InventoryPage.m_quantity := 5 # 1000;
     InventoryPage.notes := "uso interno" |}.


(** The screen after three recorded movements on the pomade of a shelf of
    two: three in, four out, a half in. *)
Definition ledger : world :=
  {| store :=
       {| transactions := {[ "t1" := t1 ]};
          transaction_items := [];
          inventory_items := {[ "p1" := pomade 150 (Some 0); "p2" := wax ]};
          inventory_movements :=
            [ {| mv_item_id := "p1"; mv_type := movement_in; mv_quantity := 300;
                 mv_notes := Some "reposição"; mv_created_by := "ana" |};
              {| mv_item_id := "p1"; mv_type := movement_out; mv_quantity := 400;
                 mv_notes := Some "uso interno"; mv_created_by := "ana" |};
              {| mv_item_id := "p1"; mv_type := movement_in; mv_quantity := 50;
                 mv_notes := Some "reposição"; mv_created_by := "ana" |} ] |};
     sent :=
       [ insert_into_inventory_movements
           {| mv_item_id := "p1"; mv_type := movement_in; mv_quantity := 300;
              mv_notes := Some "reposição"; mv_created_by := "ana" |};
         update_inventory_items_set_quantity 500 "p1";
         insert_into_inventory_movements
           {| mv_item_id := "p1"; mv_type := movement_out; mv_quantity := 400;
              mv_notes := Some "uso interno"; mv_created_by := "ana" |};
         update_inventory_items_set_quantity 100 "p1";
         insert_into_inventory_movements
           {| mv_item_id := "p1"; mv_type := movement_in; mv_quantity := 50;
              mv_notes := Some "reposição"; mv_created_by := "ana" |};
         update_inventory_items_set_quantity 150 "p1" ];
     link := [] |}.

(** One haircut in [t1]. *)
Definition haircut : transaction_items_row :=
  {| ti_transaction_id := "t1"; ti_type := SERVICE; ti_service_id := Some "s1";
     ti_inventory_item_id := None; ti_price := 4000; ti_quantity := 1;
     ti_commission := 0 |}.

(** A line tagged as a service that names a product. *)
Definition mislabelled : transaction_items_row :=
  {| ti_transaction_id := "t1"; ti_type := SERVICE; ti_service_id := None;
     ti_inventory_item_id := Some "p1"; ti_price := 2500; ti_quantity := 1;
     ti_commission := 0 |}.

End Shop.

(** The sums the totals are compared with. *)
Module Totals.
Import Schema NewTransactionPage.

(** The sum of price times quantity over the lines of the form. *)
Definition items_total (items : list TransactionItem) : decimal :=
  foldr (λ item acc, price item * quantity item + acc) 0 items.

(** The sum of price times quantity over stored lines. *)
Definition lines_total (rows : list transaction_items_row) : decimal :=
  foldr (λ r acc, ti_price r * ti_quantity r + acc) 0 rows.

(** What the total may depend on: the price and the quantity of each line. *)
Definition priced (items : list TransactionItem) : list (decimal * Z) :=
  map (λ item, (price item, quantity item)) items.

(** A haircut at 40.00 and two pomades at 25.00, five of commission each. *)
Definition checkout : Form :=
  {| selectedBarberId := "barber-1";
     selectedPaymentMethodId := "pix";
     items :=
       [ {| type := SERVICE; serviceId := Some "s1"; productId := None;
            quantity := 1; price := 4000; commission := 0 |};
         {| type := PRODUCT; serviceId := None; productId := Some "p1";
            quantity := 2; price := 2500; commission := 500 |} ];
     notes := "" |}.

(** The row [handleSubmit] stores for [checkout]. *)
Definition t2 : transactions_row :=
  {| t_barber_id := "barber-1"; t_total := 9000; t_payment_method_id := "pix";
     t_notes := Some ""; t_created_by := "ana" |}.

End Totals.

(** ** pages/NewTransaction.tsx: building the list of lines *)

Module NewTransactionScreen.
Import Schema Client NewTransactionPage.

(** The catalogues [loadData] fetches: the active services, and the
    inventory items [.gt('quantity', 0)]. *)
Record Service := { s_id : uuid; s_name : string; s_price : decimal }.
Record Product := { p_id : uuid; p_name : string; p_quantity : decimal }.

(** [[
const addItem = (type) => {
  if (type === 'SERVICE' && services.length > 0) {
    setItems([...items, { type: 'SERVICE', serviceId: services[0].id,
      quantity: 1, price: services[0].price, commission: 0 }]);
  } else if (type === 'PRODUCT' && products.length > 0) {
    setItems([...items, { type: 'PRODUCT', productId: products[0].id,
      quantity: 1, price: 0, commission: 5 }]);
  }
};
]]
    The commission of five is [5.00]. *)
Definition addItem (services : list Service) (products : list Product)
    (ty : transaction_item_type) (items : list TransactionItem) : list TransactionItem :=
  match ty, services, products with
  | SERVICE, service :: _, _ =>
      items ++ [ {| type := SERVICE; serviceId := Some (s_id service); productId := None;
                    quantity := 1; price := s_price service; commission := 0 |} ]
  | PRODUCT, _, product :: _ =>
      items ++ [ {| type := PRODUCT; serviceId := None; productId := Some (p_id product);
                    quantity := 1; price := 0; commission := of_int 5 |} ]
  | _, _, _ => items
  end.

(** [array.filter((x, i) => p(x, i))], the callback seeing the index. *)
Fixpoint filter_indexed {A} (p : A → nat → bool) (i : nat) (l : list A) : list A :=
  match l with
  | [] => []
  | x :: l => if p x i then x :: filter_indexed p (S i) l else filter_indexed p (S i) l
  end.

(** [setItems(items.filter((_, i) => i !== index))] *)
Definition removeItem (index : nat) (items : list TransactionItem) : list TransactionItem :=
  filter_indexed (λ _ i, negb (i =? index)%nat) 0%nat items.

(** A field of [TransactionItem] with the value assigned to it, the
    [field] and [value] of [updateItem]. *)
Inductive assignment :=
| set_type (value : transaction_item_type)
| set_serviceId (value : uuid)
| set_productId (value : uuid)
| set_quantity (value : Z)
| set_price (value : decimal)
| set_commission (value : decimal).

(** [{ ...item, [field]: value }] *)
Definition assign (a : assignment) (item : TransactionItem) : TransactionItem :=
  match a with
  | set_type v =>
      {| type := v; serviceId := serviceId item; productId := productId item;
         quantity := quantity item; price := price item; commission := commission item |}
  | set_serviceId v =>
      {| type := type item; serviceId := Some v; productId := productId item;
         quantity := quantity item; price := price item; commission := commission item |}
  | set_productId v =>
      {| type := type item; serviceId := serviceId item; productId := Some v;
         quantity := quantity item; price := price item; commission := commission item |}
  | set_quantity v =>
      {| type := type item; serviceId := serviceId item; productId := productId item;
         quantity := v; price := price item; commission := commission item |}
  | set_price v =>
      {| type := type item; serviceId := serviceId item; productId := productId item;
         quantity := quantity item; price := v; commission := commission item |}
  | set_commission v =>
      {| type := type item; serviceId := serviceId item; productId := productId item;
         quantity := quantity item; price := price item; commission := v |}
  end.

(** [services.find(s => s.id === value)] *)
Definition find_service (value : uuid) (services : list Service) : option Service :=
  snd <$> list_find (λ s, s_id s = value) services.

(** [[
const updateItem = (index, field, value) => {
  const updated = [...items];
  updated[index] = { ...updated[index], [field]: value };
  if (field === 'serviceId' && updated[index].type === 'SERVICE') {
    const service = services.find(s => s.id === value);
    if (service) { updated[index].price = service.price; }
  }
  setItems(updated);
};
]]
    The screen calls it with the index of a row it shows.  Past the end of
    the array JavaScript would grow it with an object that has the one
    field only, which [TransactionItem] does not hold: there the model has
    no result. *)
Definition updateItem (services : list Service) (index : nat) (a : assignment)
    (items : list TransactionItem) : option (list TransactionItem) :=
  item ← items !! index;
  let updated := assign a item in
  let updated :=
    match a with
    | set_serviceId value =>
        if bool_decide (type updated = SERVICE) then
          match find_service value services with
          | Some service => assign (set_price (s_price service)) updated
          | None => updated
          end
        else updated
    | _ => updated
    end in
  Some (<[index := updated]> items).

(** What the operator can do on the form, as the JSX wires it: the two
    add buttons; on every row the quantity input and the remove button; on
    a SERVICE row the select over [services]; on a PRODUCT row the select
    over [products] and the price input. *)
Inductive click :=
| click_add (ty : transaction_item_type)
| click_remove (index : nat)
| pick_service (index : nat) (value : uuid)
| pick_product (index : nat) (value : uuid)
| type_price (index : nat) (value : decimal)
| type_quantity (index : nat) (value : Z).

(** The row [index] is shown and is of kind [ty]. *)
Definition shows (ty : transaction_item_type) (index : nat) (items : list TransactionItem)
    : bool :=
  match items !! index with
  | Some item => bool_decide (type item = ty)
  | None => false
  end.

(** The items after a click; no result when the form has no such control. *)
Definition press (services : list Service) (products : list Product) (c : click)
    (items : list TransactionItem) : option (list TransactionItem) :=
  match c with
  | click_add ty => Some (addItem services products ty items)
  | click_remove index =>
      if bool_decide (index < length items)%nat then Some (removeItem index items) else None
  | pick_service index value =>
      if shows SERVICE index items && bool_decide (value ∈ s_id <$> services)
      then updateItem services index (set_serviceId value) items else None
  | pick_product index value =>
      if shows PRODUCT index items && bool_decide (value ∈ p_id <$> products)
      then updateItem services index (set_productId value) items else None
  | type_price index value =>
      if shows PRODUCT index items
      then updateItem services index (set_price value) items else None
  | type_quantity index value => updateItem services index (set_quantity value) items
  end.

(** A run of clicks on the form. *)
Fixpoint presses (services : list Service) (products : list Product) (cs : list click)
    (items : list TransactionItem) : option (list TransactionItem) :=
  match cs with
  | [] => Some items
  | c :: cs => press services products c items ≫= presses services products cs
  end.

(** What every line built on the screen satisfies: a SERVICE line names a
    service of the catalogue at its catalogue price and earns no commission;
    a PRODUCT line names a product and earns five per unit. *)
Definition screen_line (services : list Service) (item : TransactionItem) : Prop :=
  match type item with
  | SERVICE =>
      (∃ service, serviceId item = Some (s_id service)
                  ∧ find_service (s_id service) services = Some service
                  ∧ price item = s_price service)
      ∧ commission item = 0
  | PRODUCT => is_Some (productId item) ∧ commission item = of_int 5
  end.

(** The units of product among the lines. *)
Definition product_units (items : list TransactionItem) : Z :=
  foldr (λ item acc, (if bool_decide (type item = PRODUCT) then quantity item else 0) + acc)
        0 items.

(** The row [handleSubmit] inserts into [transactions]. *)
Definition header (form : Form) (user : uuid) : transactions_row :=
  {| t_barber_id := selectedBarberId form;
     t_total := calculateTotal (items form);
     t_payment_method_id := selectedPaymentMethodId form;
     t_notes := Some (notes form);
     t_created_by := user |}.

(** The database with the transaction [row] stored under [id] and nothing
    else changed. *)
Definition with_transaction (id : uuid) (row : transactions_row) (d : db) : db :=
  {| transactions := <[id := row]> (transactions d);
     transaction_items := transaction_items d;
     inventory_items := inventory_items d;
     inventory_movements := inventory_movements d |}.

(** The form lacks a barber, a payment method or lines. *)
Definition incomplete (form : Form) : Prop :=
  selectedBarberId form = "" ∨ selectedPaymentMethodId form = "" ∨ items form = [].

(** A catalogue of two services and one product, and an operator who adds
    a service and a product, picks the second service, prices the product
    at 25.00, sets two units, adds a service and takes it out again. *)
Definition menu : list Service :=
  [ {| s_id := "s1"; s_name := "Corte"; s_price := 4000 |};
    {| s_id := "s2"; s_name := "Barba"; s_price := 2500 |} ].

Definition counter : list Product :=
  [ {| p_id := "p1"; p_name := "Pomada"; p_quantity := of_int 2 |} ].

Definition clicks : list click :=
  [ click_add SERVICE; click_add PRODUCT; pick_service 0 "s2"; type_price 1 2500;
    type_quantity 1 2; click_add SERVICE; click_remove 2 ].

Definition built : list TransactionItem :=
  [ {| type := SERVICE; serviceId := Some "s2"; productId := None;
       quantity := 1; price := 2500; commission := 0 |};
    {| type := PRODUCT; serviceId := None; productId := Some "p1";
       quantity := 2; price := 2500; commission := 500 |} ].

(** The form with the lines [built], and the same form bound to a product
    that is not stored. *)
Definition order (lines : list TransactionItem) : Form :=
  {| selectedBarberId := "barber-1"; selectedPaymentMethodId := "pix";
     items := lines; notes := "" |}.

Definition gone : list TransactionItem :=
  [ {| type := PRODUCT; serviceId := None; productId := Some "p9";
       quantity := 1; price := 2500; commission := 500 |} ].

End NewTransactionScreen.

(** ** Notions about whole statements and whole databases *)

Module Ledger.
Import Schema Notions.

(** The units of item [i] that the product lines among [rows] sell. *)
Definition sold (i : uuid) (rows : list transaction_items_row) : Z :=
  foldr (λ r acc,
           (if bool_decide (ti_type r = PRODUCT ∧ ti_inventory_item_id r = Some i)
            then ti_quantity r else 0) + acc)
        0 rows.

(** The movements the trigger writes for [rows], one per product line, the
    actor read from the transactions of [d]. *)
Definition sale_movements (d : db) (rows : list transaction_items_row)
    : list inventory_movements_row :=
  rows ≫= λ r,
    match ti_type r, ti_inventory_item_id r, transactions d !! ti_transaction_id r with
    | PRODUCT, Some item, Some tx => [sale_movement r item (t_created_by tx)]
    | _, _, _ => []
    end.

(** The foreign keys among the four tables: every line belongs to a stored
    transaction and, if it names an inventory item, to a stored one; every
    movement belongs to a stored inventory item. *)
Definition references_hold (d : db) : Prop :=
  Forall (λ r, is_Some (transactions d !! ti_transaction_id r)
               ∧ ∀ item, ti_inventory_item_id r = Some item →
                         is_Some (inventory_items d !! item))
         (transaction_items d)
  ∧ Forall (λ m, is_Some (inventory_items d !! mv_item_id m)) (inventory_movements d).

End Ledger.

(** ** pages/Inventory.tsx: adding an item, and the card of an item *)

Module InventoryScreen.
Import Schema Client InventoryPage Notions.

(** The [newItem] state of the dialog; every field is filled, the text
    fields possibly with the empty text. *)
Record NewItem := {
  n_name : string;
  n_sku : string;
  n_quantity : decimal;
  n_unit : string;
  n_min_quantity : decimal
}.

(** [useState({ name: '', sku: '', quantity: 0, unit: 'un', min_quantity: 0 })] *)
Definition blank : NewItem :=
  {| n_name := ""; n_sku := ""; n_quantity := 0; n_unit := "un"; n_min_quantity := 0 |}.

(** The row [insert(newItem)] asks for. *)
Definition row_of (n : NewItem) : inventory_items_row :=
  {| inv_name := n_name n; inv_sku := Some (n_sku n); inv_quantity := n_quantity n;
     inv_unit := n_unit n; inv_min_quantity := Some (n_min_quantity n) |}.

(** [sku TEXT UNIQUE]: no two rows carry the same sku; rows whose sku is
    null clash with none. *)
Definition sku_taken (sku : option string) (d : db) : bool :=
  match sku with
  | None => false
  | Some s => bool_decide (map_Exists (λ _ row, inv_sku row = Some s) (inventory_items d))
  end.

(** [INSERT INTO inventory_items] with the column constraint written out,
    which [insert_inventory_item] leaves to the backend. *)
Definition insert_inventory_item_unique (id : uuid) (r : inventory_items_row) (d : db)
    : result db_error db :=
  if sku_taken (inv_sku r) d then Err (unique_violation "sku")
  else insert_inventory_item id r d.

(** One round trip that runs [run] on the database and logs [s]; [supabase s]
    is [round_trip s (exec s)]. *)
Definition round_trip (s : statement) (run : db → result db_error db) : client () :=
  λ w,
    let w1 := {| store := store w; sent := sent w ++ [s]; link := tail (link w) |} in
    if up (link w) then
      match run (store w) with
      | Ok d => (Ok (), {| store := d; sent := sent w1; link := link w1 |})
      | Err e => (Err (rejected e), w1)
      end
    else (Err unreachable, w1).

(** [[
const handleAddItem = async () => {
  try {
    const { error } = await supabase.from('inventory_items').insert(newItem);
    if (error) throw error;
    toast.success('Item adicionado com sucesso!'); ...
  } catch (error) {
    toast.error(error.message || 'Erro ao adicionar item'); }
};
]]
    [gen_random_uuid] is the key the database gives the new item. *)
Definition handleAddItem (newItem : NewItem) (gen_random_uuid : uuid) : client toast :=
  try_catch
    (round_trip (insert_into_inventory_items gen_random_uuid (row_of newItem))
       (insert_inventory_item_unique gen_random_uuid (row_of newItem)) ;;
     mret (toast_success "Item adicionado com sucesso!"))
    (λ e, mret (toast_error_message e "Erro ao adicionar item")).

(** What a JSX expression in braces can evaluate to on a card. *)
Inductive child :=
| child_null
| child_number (n : decimal)
| child_boolean (b : bool)
| child_element (text : string).

#[global] Instance child_eq_dec : EqDecision child.
Proof. solve_decision. Defined.

(** [a && b] on such values: [a] when [a] is falsy, else [b]. *)
Definition and_then (a b : child) : child :=
  match a with
  | child_null => a
  | child_number n => if n =? 0 then a else b
  | child_boolean false => a
  | child_boolean true | child_element _ => b
  end.

(** [[
{item.min_quantity && item.quantity <= item.min_quantity && (
  <p className="mt-2 text-xs text-destructive">Estoque baixo!</p>
)}
]] *)
Definition low_stock_line (item : InventoryItem) : child :=
  and_then
    (and_then
       (match min_quantity item with Some m => child_number m | None => child_null end)
       (match min_quantity item with
        | Some m => child_boolean (quantity item <=? m)
        | None => child_boolean (quantity item <=? 0)
        end))
    (child_element "Estoque baixo!").

(** What the browser shows for a child: nothing for null and booleans, the
    digits for a number, the element for an element. *)
Definition visible (c : child) : bool :=
  match c with
  | child_null | child_boolean _ => false
  | child_number _ | child_element _ => true
  end.

(** Two items entered one after the other with the sku field left empty. *)
Definition gel : NewItem :=
  {| n_name := "Gel"; n_sku := ""; n_quantity := of_int 4; n_unit := "un";
     n_min_quantity := 0 |}.

Definition oil : NewItem :=
  {| n_name := "Óleo"; n_sku := ""; n_quantity := of_int 3; n_unit := "un";
     n_min_quantity := of_int 1 |}.

End InventoryScreen.

(** ** The dashboard: low stock and top barbers *)

Module DashboardScreen.

(** [array.sort(compare)], which keeps the order of elements that compare
    equal: each element goes before the first one it does not follow. *)
Fixpoint insert_sorted {A} (compare : A → A → Z) (x : A) (l : list A) : list A :=
  match l with
  | [] => [x]
  | y :: l => if compare x y <=? 0 then x :: y :: l else y :: insert_sorted compare x l
  end.

Definition sort {A} (compare : A → A → Z) (l : list A) : list A :=
  foldr (insert_sorted compare) [] l.

(** [[
const lowStock = (allItems || [])
  .filter(item => Number(item.quantity) <= Number(item.min_quantity))
  .sort((a, b) => Number(a.quantity) - Number(b.quantity))
  .slice(0, 5);
]]
    [allItems] is null when the query failed. *)
Definition loadLowStockItems (allItems : option (list DashboardPage.StockRow))
    : list DashboardPage.StockRow :=
  take 5
    (sort (λ a b, DashboardPage.quantity a - DashboardPage.quantity b)
       (DashboardPage.lowStock (default [] allItems))).

(** The columns [select('name, quantity, min_quantity')] keeps of a stored
    inventory row. *)
Definition stock_row (r : Schema.inventory_items_row) : DashboardPage.StockRow :=
  {| DashboardPage.name := Schema.inv_name r;
     DashboardPage.quantity := Schema.inv_quantity r;
     DashboardPage.min_quantity := Schema.inv_min_quantity r |}.

(** A row of [select('barber_id, total, barbers(name)')]. *)
Record MonthRow := {
  barber_id : string;
  total : Z;
  barbers_name : string
}.

(** A value of [barberMap], and a row of the ranking. *)
Record TopBarber := {
  name : string;
  revenue : Z;
  transactions : Z
}.

(** [barberMap.get(barberId)] on a [Map], which keeps its keys in the order
    they were first set: the position and the value. *)
Definition get (barberId : string) (barberMap : list (string * TopBarber))
    : option (nat * TopBarber) :=
  (λ hit, (hit.1, hit.2.2)) <$> list_find (λ entry, entry.1 = barberId) barberMap.

(** [[
data.forEach((t) => {
  const barberId = t.barber_id;
  const existing = barberMap.get(barberId);
  if (existing) {
    existing.revenue += Number(t.total);
    existing.transactions += 1;
  } else {
    barberMap.set(barberId, { name: t.barbers.name, revenue: Number(t.total),
                              transactions: 1 });
  }
});
]] *)
Definition tally (barberMap : list (string * TopBarber)) (t : MonthRow)
    : list (string * TopBarber) :=
  match get (barber_id t) barberMap with
  | Some (position, existing) =>
      <[position := (barber_id t,
                     {| name := name existing;
                        revenue := revenue existing + total t;
                        transactions := transactions existing + 1 |})]> barberMap
  | None =>
      barberMap ++ [(barber_id t,
                     {| name := barbers_name t; revenue := total t; transactions := 1 |})]
  end.

(** The two values [tally] writes. *)
Definition counted (existing : TopBarber) (t : MonthRow) : TopBarber :=
  {| name := name existing; revenue := revenue existing + total t;
     transactions := transactions existing + 1 |}.

Definition first_seen (t : MonthRow) : TopBarber :=
  {| name := barbers_name t; revenue := total t; transactions := 1 |}.

(** The sum of the revenues of a ranking, and of the totals of the rows. *)
Definition revenues (l : list TopBarber) : Z := foldr (λ b acc, revenue b + acc) 0 l.

Definition totals (data : list MonthRow) : Z := foldr (λ t acc, total t + acc) 0 data.

Definition barberMap (data : list MonthRow) : list (string * TopBarber) :=
  fold_left tally data [].

(** [[
if (!data) return;
...
const sorted = Array.from(barberMap.values())
  .sort((a, b) => b.revenue - a.revenue)
  .slice(0, 5);
setTopBarbers(sorted);
]]
    No result when [data] is null: the ranking on the screen stays. *)
Definition loadTopBarbers (data : option (list MonthRow)) : option (list TopBarber) :=
  rows ← data;
  Some (take 5 (sort (λ a b, revenue b - revenue a) (snd <$> barberMap rows))).

(** The revenue and the number of transactions of one barber in [data]. *)
Definition revenue_of (barberId : string) (data : list MonthRow) : Z :=
  foldr (λ t acc, (if bool_decide (barber_id t = barberId) then total t else 0) + acc) 0 data.

Definition count_of (barberId : string) (data : list MonthRow) : Z :=
  foldr (λ t acc, (if bool_decide (barber_id t = barberId) then 1 else 0) + acc) 0 data.

(** What [barberMap] holds after the rows [seen]: one entry per barber seen,
    with the sum and the number of that barber's rows. *)
Definition tallied (m : list (string * TopBarber)) (seen : list MonthRow) : Prop :=
  NoDup m.*1
  ∧ (∀ k, k ∈ m.*1 ↔ k ∈ barber_id <$> seen)
  ∧ Forall (λ entry, revenue entry.2 = revenue_of entry.1 seen
                     ∧ transactions entry.2 = count_of entry.1 seen) m.

(** A month with three barbers. *)
Definition month : list MonthRow :=
  [ {| barber_id := "b1"; total := 4000; barbers_name := "Ana" |};
    {| barber_id := "b2"; total := 9000; barbers_name := "Bia" |};
    {| barber_id := "b1"; total := 2500; barbers_name := "Ana" |};
    {| barber_id := "b3"; total := 6500; barbers_name := "Caio" |} ].

Definition ranking : list TopBarber :=
  [ {| name := "Bia"; revenue := 9000; transactions := 1 |};
    {| name := "Ana"; revenue := 6500; transactions := 2 |};
    {| name := "Caio"; revenue := 6500; transactions := 1 |} ].

End DashboardScreen.

(** ** pages/Reports.tsx: the totals of the report *)

Module ReportsScreen.
Import Schema.

(** A row of the report: a transaction with its lines embedded, as
    [select('*, ..., transaction_items(type, quantity, price, commission, ...)')]
    returns it. *)
Record ReportRow := {
  r_id : uuid;
  r_total : decimal;
  r_barber_id : uuid;
  r_transaction_items : list transaction_items_row
}.

(** The rows [loadTransactions] receives when no period bounds the query
    (the period [all]): every transaction, or with
    [if (filterBarber !== 'all') query = query.eq('barber_id', filterBarber)]
    those of one barber, each with the lines that reference it.  The query
    orders them by [created_at], a column the model does not hold; here they
    come in the order of their keys. *)
Definition report_row (d : db) (entry : string * transactions_row) : ReportRow :=
  {| r_id := entry.1;
     r_total := t_total entry.2;
     r_barber_id := t_barber_id entry.2;
     r_transaction_items :=
       filter (λ r, ti_transaction_id r = entry.1) (transaction_items d) |}.

Definition loadTransactions (filterBarber : string) (d : db) : list ReportRow :=
  report_row d
  <$> filter (λ entry, filterBarber = "all" ∨ t_barber_id entry.2 = filterBarber)
        (map_to_list (transactions d)).

(** [transactions.reduce((sum, t) => sum + Number(t.total), 0)] *)
Definition totalRevenue (transactions : list ReportRow) : decimal :=
  fold_left (λ sum t, sum + r_total t) transactions 0.

(** [[
transactions.reduce((sum, t) =>
  sum + t.transaction_items.reduce((itemSum, item) =>
    itemSum + (Number(item.commission) * item.quantity), 0), 0)
]] *)
Definition totalCommission (transactions : list ReportRow) : decimal :=
  fold_left
    (λ sum t,
       sum + fold_left (λ itemSum item, itemSum + ti_commission item * ti_quantity item)
               (r_transaction_items t) 0)
    transactions 0.

(** The commission of the lines of one report row. *)
Definition row_commission (t : ReportRow) : Z :=
  fold_left (λ itemSum item, itemSum + ti_commission item * ti_quantity item)
    (r_transaction_items t) 0.

(** Whether the report filtered by [filterBarber] shows the transactions of
    [barber]. *)
Definition shows_barber (filterBarber barber : string) : bool :=
  bool_decide (filterBarber = "all" ∨ barber = filterBarber).

End ReportsScreen.

(** ** Both paths to the stock, side by side *)

Module Till.
Import Schema Client Notions.

(** The products [loadData] offers on the new-transaction form:
    [supabase.from('inventory_items').select('id, name, quantity').gt('quantity', 0)].
    The query asks for no order; the rows come in the order of their keys. *)
Definition loadProducts (d : db) : list NewTransactionScreen.Product :=
  (λ entry, {| NewTransactionScreen.p_id := entry.1;
               NewTransactionScreen.p_name := inv_name entry.2;
               NewTransactionScreen.p_quantity := inv_quantity entry.2 |})
  <$> filter (λ entry, 0 < inv_quantity entry.2) (map_to_list (inventory_items d)).

(** What the staff do that touches the stock: submit a transaction, or
    enter a movement against the card of an item as the inventory screen
    has just loaded it. *)
Inductive act :=
| act_submit (form : NewTransactionPage.Form) (user : uuid) (gen_random_uuid : uuid)
| act_move (i : uuid) (m : InventoryPage.Movement) (user : uuid).

Definition perform (a : act) : client toast :=
  match a with
  | act_submit form user key => NewTransactionPage.handleSubmit form user key
  | act_move i m user => λ w, InventoryPage.handleMovement (select_item i (store w)) m user w
  end.

(** A day at the till: the acts one after the other, whatever each one
    shows. *)
Fixpoint day (acts : list act) (w : world) : world :=
  match acts with
  | [] => w
  | a :: acts => day acts (perform a w).2
  end.

(** No movement of the day stops between its two writes: each act that is
    a movement is either recorded in full or leaves the movements as they
    were. *)
Fixpoint unbroken (acts : list act) (w : world) : Prop :=
  match acts with
  | [] => True
  | a :: acts =>
      match a with
      | act_submit _ _ _ => True
      | act_move _ _ _ =>
          (∃ t, (perform a w).1 = Ok t ∧ is_success t = true)
          ∨ inventory_movements (store (perform a w).2) = inventory_movements (store w)
      end
      ∧ unbroken acts (perform a w).2
  end.

(** Every movement of the day is entered with at most two decimals. *)
Definition in_hundredths (acts : list act) : Prop :=
  Forall (λ a, match a with
               | act_submit _ _ _ => True
               | act_move _ m _ => two_decimals (InventoryPage.m_quantity m) = true
               end) acts.

(** What the stock of item [i] is beyond what its movements account for. *)
Definition unaccounted (i : uuid) (d : db) : option Z :=
  (λ row, inv_quantity row - signed_sum (movements_of i d)) <$> inventory_items d !! i.

(** A day with a sale of two pomades, a delivery of three and a withdrawal
    that is refused. *)
Definition today : list act :=
  [ act_submit (NewTransactionScreen.order NewTransactionScreen.built) "ana" "t2";
    act_move "p1" (Shop.stock_in (of_int 3)) "ana";
    act_move "p1" (Shop.stock_out (of_int 9)) "ana" ].

End Till.

(** * Properties of the numbers *)

Module NumberFacts.
Import Schema.

Lemma Qlt_bool_iff x y : Qlt_bool x y = true ↔ (x < y)%Q.
Proof. unfold Qlt_bool, Qlt. apply Z.ltb_lt. Qed.

Lemma Qlt_bool_false x y : Qlt_bool x y = false ↔ (y <= x)%Q.
Proof. unfold Qlt_bool, Qle. apply Z.ltb_ge. Qed.

Lemma Qle_bool_false x y : Qle_bool x y = false ↔ (y < x)%Q.
Proof. unfold Qle_bool, Qlt. apply Z.leb_gt. Qed.

Lemma of_decimal_le a b : (of_decimal a <= of_decimal b)%Q ↔ a ≤ b.
Proof. unfold of_decimal, Qle. simpl. lia. Qed.

Lemma of_decimal_lt a b : (of_decimal a < of_decimal b)%Q ↔ a < b.
Proof. unfold of_decimal, Qlt. simpl. lia. Qed.

Lemma of_decimal_plus a b : (of_decimal a + of_decimal b == of_decimal (a + b))%Q.
Proof. unfold of_decimal, Qeq, Qplus. simpl. lia. Qed.

Lemma of_decimal_minus a b : (of_decimal a - of_decimal b == of_decimal (a - b))%Q.
Proof. unfold of_decimal, Qeq, Qminus, Qplus, Qopp. simpl. lia. Qed.

Lemma of_decimal_pos a : (0 < of_decimal a)%Q ↔ 0 < a.
Proof. unfold of_decimal, Qlt. simpl. lia. Qed.

Lemma of_decimal_neg a : (of_decimal a < 0)%Q ↔ a < 0.
Proof. unfold of_decimal, Qlt. simpl. lia. Qed.

Lemma of_decimal_nonneg a : (0 <= of_decimal a)%Q ↔ 0 ≤ a.
Proof. unfold of_decimal, Qle. simpl. lia. Qed.

Lemma of_decimal_nonpos a : (of_decimal a <= 0)%Q ↔ a ≤ 0.
Proof. unfold of_decimal, Qle. simpl. lia. Qed.

(** A number that is a multiple of 0.01 is stored as it is. *)
Lemma numeric_10_2_exact x q : (x == of_decimal q)%Q → numeric_10_2 x = q.
Proof.
  unfold of_decimal, Qeq, numeric_10_2. simpl.
  destruct x as [n d]. simpl. intros H.
  assert (Hd : 0 < Z.pos d) by lia.
  replace (n * 100) with (q * Z.pos d) by lia.
  destruct (0 <=? q * Z.pos d) eqn:E.
  - apply Z.leb_le in E. symmetry. apply (Z.div_unique _ _ q (Z.pos d)); lia.
  - apply Z.leb_gt in E.
    assert (- q = (2 * - (q * Z.pos d) + Z.pos d) / (2 * Z.pos d)); [|lia].
    apply (Z.div_unique _ _ (- q) (Z.pos d)); lia.
Qed.

Lemma numeric_10_2_of_decimal q : numeric_10_2 (of_decimal q) = q.
Proof. apply numeric_10_2_exact. reflexivity. Qed.


Lemma two_decimals_exact x :
  two_decimals x = true → (x == of_decimal (numeric_10_2 x))%Q.
Proof. unfold two_decimals. intros H. apply Qeq_bool_iff in H. by symmetry. Qed.

Lemma two_decimals_of_decimal q : two_decimals (of_decimal q) = true.
Proof.
  unfold two_decimals. apply Qeq_bool_iff. by rewrite numeric_10_2_of_decimal.
Qed.

Lemma two_decimals_spec x :
  two_decimals x = true ↔ ∃ q, (x == of_decimal q)%Q.
Proof.
  split.
  - intros H. eexists. by apply two_decimals_exact.
  - intros [q Hq]. unfold two_decimals. apply Qeq_bool_iff.
    rewrite (numeric_10_2_exact x q Hq). by symmetry.
Qed.

End NumberFacts.

(** * Properties of the schema *)

Module SchemaFacts.
Import Schema Notions.

Lemma check_item_type_spec r :
  check_item_type r = true ↔ kind_matches_references r.
Proof.
  unfold check_item_type, kind_matches_references, is_not_null, is_null.
  destruct (ti_type r), (ti_service_id r), (ti_inventory_item_id r); simpl;
    split; try done; intros [Hs Hn]; try done; by destruct Hs.
Qed.

Lemma migrated_passes_check tid sid price quantity :
  check_item_type (migrated tid sid price quantity) = true.
Proof. reflexivity. Qed.

Lemma check_item_type_false r :
  ¬ kind_matches_references r → check_item_type r = false.
Proof.
  intros Hn. destruct (check_item_type r) eqn:E; [|done].
  by apply check_item_type_spec in E.
Qed.

Lemma insert_transaction_item_inv r d d' :
  insert_transaction_item r d = Ok d' →
  check_item_type r = true
  ∧ is_Some (transactions d !! ti_transaction_id r)
  ∧ (∀ item, ti_inventory_item_id r = Some item → is_Some (inventory_items d !! item))
  ∧ update_inventory_on_product_sale r (with_item r d) = Ok d'.
Proof.
  unfold insert_transaction_item, with_item.
  destruct (check_item_type r); simpl; [|done].
  destruct (transactions d !! ti_transaction_id r) as [tx|] eqn:Ht; simpl; [|done].
  destruct (ti_inventory_item_id r) as [item|] eqn:Hi.
  - destruct (inventory_items d !! item) as [row|] eqn:Hr; simpl; [|done].
    intros H. repeat split; eauto. intros ? [= <-]. rewrite Hr. eauto.
  - simpl. intros H. repeat split; eauto. done.
Qed.

Lemma insert_transaction_item_accepts r d tx :
  check_item_type r = true →
  transactions d !! ti_transaction_id r = Some tx →
  (∀ item, ti_inventory_item_id r = Some item → is_Some (inventory_items d !! item)) →
  insert_transaction_item r d = update_inventory_on_product_sale r (with_item r d).
Proof.
  intros Hc Ht Hi. unfold insert_transaction_item, with_item.
  rewrite Hc, Ht. simpl.
  destruct (ti_inventory_item_id r) as [item|]; [|done].
  destruct (Hi item eq_refl) as [row ->]. done.
Qed.

(** What the trigger does for a product line whose item and transaction
    exist. *)
Lemma trigger_on_product r d item row tx :
  ti_type r = PRODUCT →
  ti_inventory_item_id r = Some item →
  inventory_items d !! item = Some row →
  transactions d !! ti_transaction_id r = Some tx →
  update_inventory_on_product_sale r d =
    Ok {| transactions := transactions d;
          transaction_items := transaction_items d;
          inventory_items :=
            <[item := set_inv_quantity (inv_quantity row - of_int (ti_quantity r)) row]>
              (inventory_items d);
          inventory_movements :=
            inventory_movements d ++ [sale_movement r item (t_created_by tx)] |}.
Proof.
  intros Hty Hit Hrow Htx. unfold update_inventory_on_product_sale.
  rewrite Hty, Hit. simpl. rewrite Htx. simpl.
  unfold insert_movement. simpl.
  rewrite lookup_alter_eq, Hrow. simpl.
  unfold sale_movement. do 2 f_equal.
  apply map_eq. intros j. destruct (decide (item = j)) as [<-|Hne].
  - by rewrite lookup_alter_eq, lookup_insert_eq, Hrow.
  - by rewrite lookup_alter_ne, lookup_insert_ne.
Qed.

Lemma trigger_on_service r d :
  ti_type r = SERVICE → update_inventory_on_product_sale r d = Ok d.
Proof. intros Hty. unfold update_inventory_on_product_sale. by rewrite Hty. Qed.

Lemma trigger_keeps_lines r d d' :
  update_inventory_on_product_sale r d = Ok d' →
  transaction_items d' = transaction_items d ∧ transactions d' = transactions d.
Proof.
  unfold update_inventory_on_product_sale, insert_movement.
  destruct (ti_type r); [by intros [= <-]|].
  destruct (ti_inventory_item_id r) as [item|]; [|by intros [= <-]].
  destruct (t_created_by <$> _); [|done].
  destruct (_ !! _); [|done]. by intros [= <-].
Qed.

Lemma insert_transaction_item_lines r d d' :
  insert_transaction_item r d = Ok d' →
  transaction_items d' = transaction_items d ++ [r]
  ∧ transactions d' = transactions d
  ∧ kind_matches_references r.
Proof.
  intros H. apply insert_transaction_item_inv in H as (Hc & _ & _ & Ht).
  apply trigger_keeps_lines in Ht as [-> ->].
  by apply check_item_type_spec in Hc.
Qed.

Lemma insert_transaction_items_pairing rows : ∀ d d',
  insert_transaction_items rows d = Ok d' →
  Forall kind_matches_references (transaction_items d) →
  Forall kind_matches_references (transaction_items d').
Proof.
  induction rows as [|r rows IH]; intros d d'; simpl.
  - by intros [= <-].
  - destruct (insert_transaction_item r d) as [d1|e] eqn:E; [|done].
    simpl. intros H Hd. apply (IH _ _ H).
    apply insert_transaction_item_lines in E as (-> & _ & Hr).
    apply Forall_app. split; [done|]. by constructor.
Qed.

Lemma exec_pairing s d d' :
  exec s d = Ok d' →
  Forall kind_matches_references (transaction_items d) →
  Forall kind_matches_references (transaction_items d').
Proof.
  destruct s; simpl.
  - unfold insert_transaction. destruct (_ !! _); [done|]. by intros [= <-].
  - apply insert_transaction_items_pairing.
  - unfold insert_inventory_item. destruct (_ !! _); [done|]. by intros [= <-].
  - unfold insert_movement. destruct (_ !! _); [|done]. by intros [= <-].
  - by intros [= <-].
  - intros [= <-] Hd. simpl. apply Forall_forall. intros r Hr.
    apply list_elem_of_filter in Hr as [_ Hr].
    by apply (proj1 (Forall_forall _ _) Hd).
Qed.

Lemma insert_transaction_items_rejects rows r : ∀ d,
  r ∈ rows → ¬ kind_matches_references r →
  is_ok (insert_transaction_items rows d) = false.
Proof.
  induction rows as [|r0 rows IH]; intros d Hin Hr.
  - by apply elem_of_nil in Hin.
  - simpl. apply elem_of_cons in Hin as [<-|Hin].
    + unfold insert_transaction_item. by rewrite (check_item_type_false r Hr).
    + destruct (insert_transaction_item r0 d) as [d1|e]; [|done].
      simpl. by apply IH.
Qed.

(** C2.  In every database the application can produce, every stored
    transaction item has exactly the reference its kind names: a SERVICE
    line a service and no inventory item, a PRODUCT line an inventory item
    and no service.  A candidate row that breaks the pairing is rejected by
    [check_item_type], alone or as part of a multi-row insert. *)
Theorem stored_items_match_their_kind d :
  reachable d →
  Forall kind_matches_references (transaction_items d)
  ∧ (∀ r, ¬ kind_matches_references r →
       insert_transaction_item r d = Err (check_violation "check_item_type"))
  ∧ (∀ rows r, r ∈ rows → ¬ kind_matches_references r →
       is_ok (exec (insert_into_transaction_items rows) d) = false).
Proof.
  intros Hd. split; [|split].
  - induction Hd as [|s d d' _ IH Hs]; [constructor|]. by eapply exec_pairing.
  - intros r Hr. unfold insert_transaction_item.
    by rewrite (check_item_type_false r Hr).
  - intros rows r Hin Hr. simpl. by eapply insert_transaction_items_rejects.
Qed.

Lemma shelf_reachable q : reachable (Shop.shelf q).
Proof.
  eapply (reachable_exec (insert_into_inventory_items "p1" (Shop.pomade q (Some 0)))).
  eapply (reachable_exec (insert_into_inventory_items "p2" Shop.wax)).
  eapply (reachable_exec (insert_into_transactions "t1" Shop.t1)).
  - apply reachable_empty.
  - reflexivity.
  - reflexivity.
  - simpl. unfold insert_inventory_item. simpl. reflexivity.
Qed.

Lemma stored_items_match_their_kind_witness :
  reachable (Shop.after_sale (of_int 2))
  ∧ Forall kind_matches_references (transaction_items (Shop.after_sale (of_int 2)))
  ∧ insert_transaction_item Shop.mislabelled (Shop.after_sale (of_int 2))
    = Err (check_violation "check_item_type").
Proof.
  assert (Hr : reachable (Shop.after_sale (of_int 2))).
  { apply (reachable_exec (insert_into_transaction_items [Shop.sale])
             (Shop.shelf (of_int 2))).
    - apply shelf_reachable.
    - vm_compute. reflexivity. }
  split; [exact Hr|].
  destruct (stored_items_match_their_kind _ Hr) as (Hall & Hrej & _).
  split; [exact Hall|].
  apply Hrej. unfold kind_matches_references. simpl. intros [[? [=]] _].
Defined.

(** The effect of an accepted product line, for use in later proofs. *)
Lemma product_sale_moves_stock_aux r d d' item row :
  ti_type r = PRODUCT →
  ti_inventory_item_id r = Some item →
  inventory_items d !! item = Some row →
  insert_transaction_item r d = Ok d' →
  ∃ tx,
    transactions d !! ti_transaction_id r = Some tx
    ∧ inventory_items d' !! item
      = Some (set_inv_quantity (inv_quantity row - of_int (ti_quantity r)) row)
    ∧ (∀ other, other ≠ item → inventory_items d' !! other = inventory_items d !! other)
    ∧ inventory_movements d' =
        inventory_movements d ++ [sale_movement r item (t_created_by tx)].
Proof.
  intros Hty Hit Hrow H.
  apply insert_transaction_item_inv in H as (_ & [tx Htx] & _ & Ht).
  rewrite (trigger_on_product r (with_item r d) item row tx) in Ht by done.
  injection Ht as <-. exists tx. simpl. split; [done|]. split; [|split].
  - apply lookup_insert_eq.
  - intros other Hne. by apply lookup_insert_ne.
  - reflexivity.
Qed.

(** C1.  An accepted insert of a PRODUCT line with quantity [Q] that
    references an inventory item with quantity [S] leaves that item with
    quantity [S - Q], leaves every other inventory item as it was, and
    appends exactly one movement: direction [out], quantity [Q], the creator
    of the parent transaction as actor and a note that is the fixed text
    followed by the transaction id. *)
Theorem product_sale_moves_stock r d d' item row :
  ti_type r = PRODUCT →
  ti_inventory_item_id r = Some item →
  inventory_items d !! item = Some row →
  insert_transaction_item r d = Ok d' →
  ∃ tx,
    transactions d !! ti_transaction_id r = Some tx
    ∧ inventory_items d' !! item
      = Some (set_inv_quantity (inv_quantity row - of_int (ti_quantity r)) row)
    ∧ (∀ other, other ≠ item → inventory_items d' !! other = inventory_items d !! other)
    ∧ inventory_movements d' =
        inventory_movements d ++
          [ {| mv_item_id := item;
               mv_type := movement_out;
               mv_quantity := of_int (ti_quantity r);
               mv_notes := Some ("Venda automática - Transaction ID: "
                                   +:+ ti_transaction_id r);
               mv_created_by := t_created_by tx |} ].
Proof.
  intros Hty Hit Hrow H.
  apply insert_transaction_item_inv in H as (_ & [tx Htx] & _ & Ht).
  rewrite (trigger_on_product r (with_item r d) item row tx) in Ht by done.
  injection Ht as <-. exists tx. simpl. split; [done|]. split; [|split].
  - apply lookup_insert_eq.
  - intros other Hne. by apply lookup_insert_ne.
  - reflexivity.
Qed.

Lemma product_sale_moves_stock_witness :
  insert_transaction_item Shop.sale (Shop.shelf (of_int 2)) = Ok (Shop.after_sale (of_int 2))
  ∧ ∃ tx,
      transactions (Shop.shelf (of_int 2)) !! "t1" = Some tx
      ∧ inventory_items (Shop.after_sale (of_int 2)) !! "p1"
        = Some (set_inv_quantity (of_int 2 - of_int 5) (Shop.pomade (of_int 2) (Some 0)))
      ∧ (∀ other, other ≠ "p1" →
           inventory_items (Shop.after_sale (of_int 2)) !! other
           = inventory_items (Shop.shelf (of_int 2)) !! other)
      ∧ inventory_movements (Shop.after_sale (of_int 2)) =
          inventory_movements (Shop.shelf (of_int 2)) ++
            [ {| mv_item_id := "p1"; mv_type := movement_out; mv_quantity := of_int 5;
                 mv_notes := Some ("Venda automática - Transaction ID: " +:+ "t1");
                 mv_created_by := t_created_by tx |} ].
Proof.
  split; [vm_compute; reflexivity|].
  apply (product_sale_moves_stock Shop.sale (Shop.shelf (of_int 2))
           (Shop.after_sale (of_int 2)) "p1" (Shop.pomade (of_int 2) (Some 0)));
    vm_compute; reflexivity.
Defined.

(** C4.  The trigger decrements without looking at the sign of the result:
    a PRODUCT line that passes the check constraint and whose item and
    transaction exist is accepted whatever its quantity, and the item is
    left with [S - Q]; with [S = 2] and [Q = 5] that is [-3].  The manual
    path refuses the same withdrawal. *)
Theorem trigger_decrement_is_unconditional r d item row tx :
  ti_type r = PRODUCT →
  ti_service_id r = None →
  ti_inventory_item_id r = Some item →
  inventory_items d !! item = Some row →
  transactions d !! ti_transaction_id r = Some tx →
  ∃ d',
    insert_transaction_item r d = Ok d'
    ∧ inv_quantity <$> inventory_items d' !! item
      = Some (inv_quantity row - of_int (ti_quantity r))
    ∧ (inv_quantity row = of_int 2 → ti_quantity r = 5 →
         inv_quantity <$> inventory_items d' !! item = Some (of_int (-3)))
    ∧ (0 < ti_quantity r → inv_quantity row < of_int (ti_quantity r) →
         ∀ notes user w,
           InventoryPage.handleMovement
             (Some (item_of_row item row))
             {| InventoryPage.type := movement_out;
                InventoryPage.m_quantity := of_decimal (of_int (ti_quantity r));
                InventoryPage.notes := notes |} user w
           = (Ok (Client.toast_error "Quantidade insuficiente em estoque"), w)).
Proof.
  intros Hty Hsv Hit Hrow Htx.
  eexists. split; [|split; [|split]].
  - rewrite (insert_transaction_item_accepts r d tx); [| |done|].
    + by apply (trigger_on_product r (with_item r d) item row tx).
    + unfold check_item_type. by rewrite Hty, Hit, Hsv.
    + intros item0 H0. rewrite Hit in H0. injection H0 as <-. eauto.
  - simpl. by rewrite lookup_insert_eq.
  - intros HS HQ. simpl. rewrite lookup_insert_eq. simpl. by rewrite HS, HQ.
  - intros HQ Hlt notes user w. unfold InventoryPage.handleMovement. simpl.
    destruct (Qle_bool (of_decimal (of_int (ti_quantity r))) 0) eqn:E.
    { apply (proj1 (Qle_bool_iff _ _)) in E.
      apply (proj1 (NumberFacts.of_decimal_nonpos _)) in E.
      unfold of_int in E. lia. }
    unfold Client.try_catch. simpl.
    destruct (Qlt_bool (of_decimal (inv_quantity row)
                        - of_decimal (of_int (ti_quantity r))) 0) eqn:E2; [done|].
    apply (proj1 (NumberFacts.Qlt_bool_false _ _)) in E2.
    rewrite NumberFacts.of_decimal_minus in E2.
    apply (proj1 (NumberFacts.of_decimal_nonneg _)) in E2. lia.
Qed.

Lemma trigger_decrement_is_unconditional_witness :
  ∃ d',
    insert_transaction_item Shop.sale (Shop.shelf (of_int 2)) = Ok d'
    ∧ inv_quantity <$> inventory_items d' !! "p1" = Some (of_int (-3))
    ∧ ∀ notes user w,
        InventoryPage.handleMovement
          (Some (item_of_row "p1" (Shop.pomade (of_int 2) (Some 0))))
          {| InventoryPage.type := movement_out;
             InventoryPage.m_quantity := of_decimal (of_int 5);
             InventoryPage.notes := notes |} user w
        = (Ok (Client.toast_error "Quantidade insuficiente em estoque"), w).
Proof.
  destruct (trigger_decrement_is_unconditional Shop.sale (Shop.shelf (of_int 2))
              "p1" (Shop.pomade (of_int 2) (Some 0)) Shop.t1)
    as (d' & Hins & _ & Hthree & Hmanual); try (vm_compute; reflexivity).
  exists d'. split; [exact Hins|]. split.
  - apply Hthree; reflexivity.
  - apply Hmanual; vm_compute; reflexivity.
Defined.

Lemma product_line_has_item r :
  check_item_type r = true → ti_type r = PRODUCT → is_Some (ti_inventory_item_id r).
Proof.
  intros Hc Hty. apply check_item_type_spec in Hc.
  unfold kind_matches_references in Hc. rewrite Hty in Hc. tauto.
Qed.

(** C6.  An accepted insert of a SERVICE line writes no movement and leaves
    the inventory table as it was; an accepted insert of a PRODUCT line
    appends exactly one movement, of direction [out]. *)
Theorem service_line_moves_no_stock r d d' :
  insert_transaction_item r d = Ok d' →
  (ti_type r = SERVICE →
     inventory_movements d' = inventory_movements d
     ∧ inventory_items d' = inventory_items d)
  ∧ (ti_type r = PRODUCT →
     ∃ m, inventory_movements d' = inventory_movements d ++ [m]
          ∧ mv_type m = movement_out).
Proof.
  intros H. apply insert_transaction_item_inv in H as (Hc & [tx Htx] & Hfk & Ht).
  split; intros Hty.
  - rewrite trigger_on_service in Ht by done. by injection Ht as <-.
  - destruct (product_line_has_item r Hc Hty) as [item Hit].
    destruct (Hfk item Hit) as [row Hrow].
    rewrite (trigger_on_product r (with_item r d) item row tx) in Ht by done.
    injection Ht as <-. simpl. eauto.
Qed.

Lemma service_line_moves_no_stock_witness :
  insert_transaction_item Shop.haircut (Shop.shelf (of_int 2))
  = Ok (with_item Shop.haircut (Shop.shelf (of_int 2)))
  ∧ (ti_type Shop.haircut = SERVICE →
       inventory_movements (with_item Shop.haircut (Shop.shelf (of_int 2)))
       = inventory_movements (Shop.shelf (of_int 2))
       ∧ inventory_items (with_item Shop.haircut (Shop.shelf (of_int 2)))
         = inventory_items (Shop.shelf (of_int 2))).
Proof.
  assert (H : insert_transaction_item Shop.haircut (Shop.shelf (of_int 2))
              = Ok (with_item Shop.haircut (Shop.shelf (of_int 2)))).
  { vm_compute. reflexivity. }
  split; [exact H|].
  exact (proj1 (service_line_moves_no_stock _ _ _ H)).
Defined.

(** The same count for a whole statement: one movement per product line,
    appended after the movements already there. *)
Lemma statement_writes_one_movement_per_product rows : ∀ d d',
  insert_transaction_items rows d = Ok d' →
  ∃ ms, inventory_movements d' = inventory_movements d ++ ms
        ∧ length ms = product_lines rows
        ∧ Forall (λ m, mv_type m = movement_out) ms.
Proof.
  induction rows as [|r rows IH]; intros d d'; simpl.
  - intros [= <-]. exists []. by rewrite app_nil_r.
  - destruct (insert_transaction_item r d) as [d1|e] eqn:E; [|done].
    simpl. intros H. destruct (IH _ _ H) as (ms & Hms & Hlen & Hout).
    destruct (service_line_moves_no_stock _ _ _ E) as [Hs Hp].
    unfold product_lines in *.
    destruct (ti_type r) eqn:Hty.
    + destruct (Hs eq_refl) as [Hm _]. exists ms. rewrite Hms, Hm.
      rewrite filter_cons_False by (rewrite Hty; done). done.
    + destruct (Hp eq_refl) as (m & Hm & Hmo). exists (m :: ms).
      rewrite Hms, Hm, <- app_assoc. simpl.
      rewrite filter_cons_True by done. simpl.
      split; [done|]. split; [lia|]. by constructor.
Qed.

End SchemaFacts.

(** * Properties of the client *)

Module ClientFacts.
Import Schema Client.

Lemma supabase_reaches s w d :
  up (link w) = true → exec s (store w) = Ok d →
  supabase s w = (Ok (), {| store := d; sent := sent w ++ [s]; link := tail (link w) |}).
Proof. intros Hup Hex. unfold supabase. by rewrite Hup, Hex. Qed.

Lemma supabase_rejected s w e :
  up (link w) = true → exec s (store w) = Err e →
  supabase s w
  = (Err (rejected e), {| store := store w; sent := sent w ++ [s]; link := tail (link w) |}).
Proof. intros Hup Hex. unfold supabase. by rewrite Hup, Hex. Qed.

Lemma supabase_unreachable s w :
  up (link w) = false →
  supabase s w
  = (Err unreachable, {| store := store w; sent := sent w ++ [s]; link := tail (link w) |}).
Proof. intros Hup. unfold supabase. by rewrite Hup. Qed.

(** A failed call leaves the database alone, and every call is logged. *)
Lemma supabase_effect s w r w1 :
  supabase s w = (r, w1) →
  sent w1 = sent w ++ [s] ∧ link w1 = tail (link w)
  ∧ match r with
    | Ok _ => up (link w) = true ∧ exec s (store w) = Ok (store w1)
    | Err _ => store w1 = store w
    end.
Proof.
  unfold supabase. destruct (up (link w)).
  - destruct (exec s (store w)) as [d|e]; intros [= <- <-]; simpl; auto.
  - intros [= <- <-]. simpl. auto.
Qed.

End ClientFacts.

(** * Properties of the inventory screen *)

Module InventoryFacts.
Import Schema Client InventoryPage Notions NumberFacts ClientFacts.

Lemma insert_movement_stored r d :
  is_Some (inventory_items d !! mv_item_id r) →
  exec (insert_into_inventory_movements r) d = Ok (with_movement r d).
Proof. intros [row Hrow]. simpl. unfold insert_movement. by rewrite Hrow. Qed.

Lemma insert_movement_inv r d d' :
  exec (insert_into_inventory_movements r) d = Ok d' →
  is_Some (inventory_items d !! mv_item_id r) ∧ d' = with_movement r d.
Proof.
  simpl. unfold insert_movement.
  destruct (inventory_items d !! mv_item_id r) eqn:E; [|done].
  intros [= <-]. eauto.
Qed.

Lemma handleMovement_guarded sel m user w :
  sel = None ∨ (m_quantity m <= 0)%Q →
  handleMovement sel m user w = (Ok (toast_error "Preencha todos os campos"), w).
Proof.
  intros H. unfold handleMovement. destruct sel as [it|]; [|done].
  destruct H as [|H]; [done|]. apply Qle_bool_iff in H. by rewrite H.
Qed.

Lemma handleMovement_insufficient it m user w :
  (0 < m_quantity m)%Q → (newQuantity it m < 0)%Q →
  handleMovement (Some it) m user w
  = (Ok (toast_error "Quantidade insuficiente em estoque"), w).
Proof.
  intros HQ Hnew. unfold handleMovement.
  apply Qle_bool_false in HQ. rewrite HQ.
  unfold try_catch. fold (newQuantity it m).
  apply Qlt_bool_iff in Hnew. by rewrite Hnew.
Qed.

Section PastGuards.
Variables (it : InventoryItem) (m : Movement) (user : uuid) (w : world).
Hypothesis positive : (0 < m_quantity m)%Q.
Hypothesis enough : (0 <= newQuantity it m)%Q.

Let ins := insert_into_inventory_movements (manual_movement it m user).
Let upd := update_inventory_items_set_quantity (candidate it m) (id it).

(** [handleMovement] once both guards have passed. *)
Lemma handleMovement_past_guards :
  handleMovement (Some it) m user w =
    match supabase ins w with
    | (Err e, w1) => (Ok (toast_error_message e "Erro ao registrar movimentação"), w1)
    | (Ok _, w1) =>
        match supabase upd w1 with
        | (Err e, w2) => (Ok (toast_error_message e "Erro ao registrar movimentação"), w2)
        | (Ok _, w2) => (Ok (toast_success "Movimentação registrada com sucesso!"), w2)
        end
    end.
Proof.
  unfold handleMovement.
  rewrite (proj2 (Qle_bool_false _ _) positive).
  unfold try_catch. fold (newQuantity it m).
  rewrite (proj2 (Qlt_bool_false _ _) enough).
  fold (candidate it m). fold (manual_movement it m user). fold ins upd.
  unfold mbind, client_bind, mret, client_ret.
  destruct (supabase ins w) as [[[]|e] w1]; [|done].
  by destruct (supabase upd w1) as [[[]|e] w2].
Qed.

(** Every run of [handleMovement] past the guards ends in one of the
    three outcomes. *)
Lemma handleMovement_outcome :
  ∃ t w', handleMovement (Some it) m user w = (Ok t, w')
          ∧ movement_outcome it m user w t w'.
Proof.
  rewrite handleMovement_past_guards.
  destruct (up (link w)) eqn:Hup.
  - destruct (exec ins (store w)) as [d1|e] eqn:Hins.
    + rewrite (supabase_reaches ins w d1) by done.
      apply insert_movement_inv in Hins as [Hfk ->].
      unfold supabase. simpl.
      destruct (up (tail (link w))) eqn:Hup2.
      * eexists _, _. split; [reflexivity|].
        rewrite <- app_assoc. by apply recorded.
      * eexists _, _. split; [reflexivity|].
        rewrite <- app_assoc. by apply update_failed.
    + rewrite (supabase_rejected ins w e) by done.
      eexists _, _. split; [reflexivity|]. apply insert_failed.
  - rewrite supabase_unreachable by done.
    eexists _, _. split; [reflexivity|]. apply insert_failed.
Qed.
End PastGuards.

(** A request is either stopped by a guard, the world untouched, or runs
    past them to one of the three outcomes. *)
Lemma handleMovement_cases sel m user w :
  (∃ msg, handleMovement sel m user w = (Ok (toast_error msg), w))
  ∨ (∃ it t w', sel = Some it ∧ (0 <= newQuantity it m)%Q
                ∧ handleMovement sel m user w = (Ok t, w')
                ∧ movement_outcome it m user w t w').
Proof.
  destruct sel as [it|]; [|left; eexists; apply handleMovement_guarded; auto].
  destruct (Qlt_le_dec 0 (m_quantity m)) as [HQ|HQ];
    [|left; eexists; apply handleMovement_guarded; auto].
  destruct (Qlt_le_dec (newQuantity it m) 0) as [Hneg|Hnew];
    [left; eexists; by apply handleMovement_insufficient|].
  right. destruct (handleMovement_outcome it m user w) as (t & w' & Hrun & Hout);
    [done|done|].
  by exists it, t, w'.
Qed.

Lemma round_trips_reach_two w :
  round_trips_reach 2 w → up (link w) = true ∧ up (tail (link w)) = true.
Proof.
  unfold round_trips_reach. destruct (link w) as [|b [|b' l]]; simpl; [done| |].
  - intros H. by inversion_clear H.
  - intros H. inversion_clear H as [|? ? ? H']. by inversion_clear H'.
Qed.

(** Both writes stored: the movement is appended and the item carries the
    candidate quantity. *)
Lemma handleMovement_recorded it m user w row :
  (0 < m_quantity m)%Q → (0 <= newQuantity it m)%Q →
  inventory_items (store w) !! id it = Some row →
  round_trips_reach 2 w →
  ∃ w', handleMovement (Some it) m user w
        = (Ok (toast_success "Movimentação registrada com sucesso!"), w')
    ∧ inventory_items (store w')
      = <[id it := set_inv_quantity (candidate it m) row]> (inventory_items (store w))
    ∧ inventory_movements (store w')
      = inventory_movements (store w) ++ [manual_movement it m user]
    ∧ sent w'
      = sent w ++ [insert_into_inventory_movements (manual_movement it m user);
                   update_inventory_items_set_quantity (candidate it m) (id it)].
Proof.
  intros HQ Hnew Hrow Hup. apply round_trips_reach_two in Hup as [Hup1 Hup2].
  destruct (handleMovement_outcome it m user w HQ Hnew) as (t & w' & Hrun & Hout).
  destruct Hout as [e | _ _ Hdown | _ _ _].
  - exfalso. rewrite handleMovement_past_guards in Hrun by done.
    rewrite (supabase_reaches _ w (with_movement (manual_movement it m user) (store w)))
      in Hrun.
    + unfold supabase in Hrun. simpl in Hrun. rewrite Hup2 in Hrun. done.
    + done.
    + apply insert_movement_stored. simpl. eauto.
  - congruence.
  - eexists. split; [exact Hrun|]. simpl. split; [|done].
    apply map_eq. intros j. destruct (decide (id it = j)) as [<-|Hne].
    + by rewrite lookup_alter_eq, lookup_insert_eq, Hrow.
    + by rewrite lookup_alter_ne, lookup_insert_ne.
Qed.

(** The card the operator picks is the stored row. *)
Lemma select_item_stored i d row :
  inventory_items d !! i = Some row → select_item i d = Some (item_of_row i row).
Proof. intros H. unfold select_item. by rewrite H. Qed.


(** With a quantity of at most two decimals nothing is rounded: the row
    records the quantity entered and the stock moves by it. *)
Lemma candidate_exact it m :
  two_decimals (m_quantity m) = true →
  candidate it m
  = match type m with
    | movement_in => quantity it + numeric_10_2 (m_quantity m)
    | movement_out => quantity it - numeric_10_2 (m_quantity m)
    end.
Proof.
  intros H. apply two_decimals_exact in H.
  unfold candidate, newQuantity. destruct (type m); apply numeric_10_2_exact.
  - rewrite <- of_decimal_plus. by apply Qplus_comp.
  - rewrite <- of_decimal_minus. apply Qplus_comp; [done|]. by apply Qopp_comp.
Qed.









(** C8.  In [handleMovement] the guards come before any write: a request
    they stop leaves the world untouched.  Past the guards the movement
    insert is the first statement sent, the quantity update is sent after
    it as a statement of its own, and only once the movement is stored.
    When the insert is stored and the update does not get through, the
    movement row stays while the inventory table is as it was. *)
Theorem movement_is_written_before_quantity it m user w :
  is_Some (inventory_items (store w) !! id it) →
  ((m_quantity m <= 0)%Q ∨ (newQuantity it m < 0)%Q →
     ∃ msg, handleMovement (Some it) m user w = (Ok (toast_error msg), w))
  ∧ ((0 < m_quantity m)%Q → (0 <= newQuantity it m)%Q →
     (∀ t w', handleMovement (Some it) m user w = (t, w') →
        (sent w' = sent w ++ [insert_into_inventory_movements (manual_movement it m user)]
         ∧ store w' = store w)
        ∨ (sent w' = sent w ++
                       [insert_into_inventory_movements (manual_movement it m user);
                        update_inventory_items_set_quantity (candidate it m) (id it)]
           ∧ inventory_movements (store w')
             = inventory_movements (store w) ++ [manual_movement it m user]))
     ∧ (up (link w) = true → up (tail (link w)) = false →
        ∃ w',
          handleMovement (Some it) m user w
          = (Ok (toast_error_message unreachable "Erro ao registrar movimentação"), w')
          ∧ inventory_movements (store w')
            = inventory_movements (store w) ++ [manual_movement it m user]
          ∧ inventory_items (store w') = inventory_items (store w))).
Proof.
  intros Hfk. split.
  - intros [HQ|Hneg].
    + eexists. apply handleMovement_guarded. auto.
    + destruct (Qlt_le_dec 0 (m_quantity m)) as [HQ|HQ].
      * eexists. by apply handleMovement_insufficient.
      * eexists. apply handleMovement_guarded. auto.
  - intros HQ Hnew.
    destruct (handleMovement_outcome it m user w HQ Hnew) as (t1 & w1 & Hrun & Hout).
    split.
    + intros t w' Hrun'. rewrite Hrun in Hrun'. injection Hrun' as <- <-.
      destruct Hout; simpl; auto.
    + intros Hup1 Hup2. destruct Hout as [e | _ _ _ | _ _ Hup2'].
      * exfalso. rewrite handleMovement_past_guards in Hrun by done.
        rewrite (supabase_reaches _ w
                   (with_movement (manual_movement it m user) (store w))) in Hrun;
          [|done|by apply insert_movement_stored].
        rewrite supabase_unreachable in Hrun by done.
        apply (f_equal snd) in Hrun. simpl in Hrun.
        apply (f_equal store) in Hrun. simpl in Hrun. rename Hrun into Hw.
        apply (f_equal inventory_movements) in Hw. simpl in Hw.
        apply (f_equal length) in Hw. rewrite length_app in Hw. simpl in Hw. lia.
      * eexists. split; [exact Hrun|]. done.
      * congruence.
Qed.

Lemma movement_is_written_before_quantity_witness :
  is_Some (inventory_items (Shop.shelf (of_int 2)) !! "p1")
  ∧ up [true; false] = true ∧ up (tail [true; false]) = false
  ∧ ∃ w',
      handleMovement (Some (item_of_row "p1" (Shop.pomade (of_int 2) (Some 0))))
        (Shop.stock_in (of_int 3)) "ana" (Shop.desk (Shop.shelf (of_int 2)) [true; false])
      = (Ok (toast_error_message unreachable "Erro ao registrar movimentação"), w')
      ∧ inventory_movements (store w')
        = [] ++ [manual_movement (item_of_row "p1" (Shop.pomade (of_int 2) (Some 0)))
                   (Shop.stock_in (of_int 3)) "ana"]
      ∧ inventory_items (store w') = inventory_items (Shop.shelf (of_int 2)).
Proof.
  assert (Hfk : is_Some (inventory_items (Shop.shelf (of_int 2)) !! "p1")).
  { exists (Shop.pomade (of_int 2) (Some 0)). vm_compute. reflexivity. }
  split; [exact Hfk|]. split; [reflexivity|]. split; [reflexivity|].
  refine (proj2 (proj2 (movement_is_written_before_quantity
                          (item_of_row "p1" (Shop.pomade (of_int 2) (Some 0)))
                          (Shop.stock_in (of_int 3)) "ana"
                          (Shop.desk (Shop.shelf (of_int 2)) [true; false]) Hfk) _ _)
            eq_refl eq_refl);
    vm_compute; (reflexivity || discriminate).
Defined.

Lemma signed_sum_app rows rows' :
  signed_sum (rows ++ rows') = signed_sum rows + signed_sum rows'.
Proof.
  unfold signed_sum. induction rows as [|r rows IH]; simpl; [done|].
  rewrite IH. lia.
Qed.

Lemma signed_sum_singleton r : signed_sum [r] = signed r.
Proof. unfold signed_sum. simpl. lia. Qed.

(** A movement that is recorded: the card was there, both guards passed
    and both writes are stored. *)
Lemma handleMovement_success_inv sel m user w t w' :
  handleMovement sel m user w = (Ok t, w') →
  is_success t = true →
  ∃ it, sel = Some it
        ∧ store w' = with_quantity (id it) (candidate it m)
                       (with_movement (manual_movement it m user) (store w)).
Proof.
  intros Hrun Hok.
  destruct (handleMovement_cases sel m user w)
    as [[msg Hstop] | (it & t1 & w1 & Hsel & _ & Hrun1 & Hout)].
  - rewrite Hrun in Hstop. by injection Hstop as -> _.
  - rewrite Hrun in Hrun1. injection Hrun1 as -> ->.
    destruct Hout; try done. eauto.
Qed.

(** C7, as stated, fails.  Two movements entered against one card of a
    shelf of two, three in and one out, are both recorded and the stock goes
    [2], [5], [1]: the rows add up to [+2] while the stock is down by one.
    And a recorded withdrawal of [0.005] from a shelf holding [1.00] leaves
    a row of [0.01] and the stock at [1.00]. *)
Lemma recorded_movements_may_not_add_up :
  (∃ w1 w2,
     handleMovement (Some (item_of_row "p1" (Shop.pomade (of_int 2) (Some 0))))
       (Shop.stock_in (of_int 3)) "ana" (Shop.desk (Shop.shelf (of_int 2)) [])
     = (Ok (toast_success "Movimentação registrada com sucesso!"), w1)
     ∧ handleMovement (Some (item_of_row "p1" (Shop.pomade (of_int 2) (Some 0))))
         (Shop.stock_out (of_int 1)) "ana" w1
       = (Ok (toast_success "Movimentação registrada com sucesso!"), w2)
     ∧ stock "p1" (Shop.shelf (of_int 2)) = Some (of_int 2)
     ∧ stock "p1" (store w1) = Some (of_int 5)
     ∧ stock "p1" (store w2) = Some (of_int 1)
     ∧ movements_of "p1" (Shop.shelf (of_int 2)) = []
     ∧ signed_sum (movements_of "p1" (store w2)) = of_int 2
     ∧ of_int 2 ≠ of_int 1 - of_int 2)
  ∧ (∃ w1,
       record_movements "p1" "ana" [Shop.half_cent_out] (Shop.desk (Shop.shelf 100) [])
       = (true, w1)
       ∧ stock "p1" (Shop.shelf 100) = Some 100
       ∧ stock "p1" (store w1) = Some 100
       ∧ movements_of "p1" (Shop.shelf 100) = []
       ∧ signed_sum (movements_of "p1" (store w1)) = -1
       ∧ -1 ≠ 100 - 100).
Proof.
  split.
  - eexists _, _. split; [vm_compute; reflexivity|].
    split; [vm_compute; reflexivity|].
    repeat (split; [vm_compute; reflexivity|]). vm_compute. discriminate.
  - eexists. split; [vm_compute; reflexivity|].
    repeat (split; [vm_compute; reflexivity|]). vm_compute. discriminate.
Qed.

(** C7, amended.  Along any run of recorded manual movements on an item,
    each of a quantity of at most two decimals and each entered against the
    card as reloaded after the one before, the signed quantities of the
    movement rows written for the item add up to the change of its stored
    quantity. *)
Theorem movements_account_for_stock i user ms : ∀ w w' row,
  Forall (λ m, two_decimals (m_quantity m) = true) ms →
  inventory_items (store w) !! i = Some row →
  record_movements i user ms w = (true, w') →
  ∃ row',
    inventory_items (store w') !! i = Some row'
    ∧ signed_sum (movements_of i (store w')) - signed_sum (movements_of i (store w))
      = inv_quantity row' - inv_quantity row
    ∧ (movements_of i (store w) = [] →
         signed_sum (movements_of i (store w')) = inv_quantity row' - inv_quantity row).
Proof.
  intros w w' row Htwo Hrow Hrun.
  cut (∃ row',
         inventory_items (store w') !! i = Some row'
         ∧ signed_sum (movements_of i (store w')) - signed_sum (movements_of i (store w))
           = inv_quantity row' - inv_quantity row).
  { intros (row' & Hrow' & Hsum). exists row'. split; [done|]. split; [done|].
    intros Hnone. rewrite Hnone in Hsum. unfold signed_sum in Hsum at 2.
    simpl in Hsum. lia. }
  revert w w' row Hrow Hrun.
  induction Htwo as [|m ms Hm Hms IH]; intros w w' row Hrow; simpl.
  - intros [= <-]. exists row. split; [done|]. lia.
  - destruct (handleMovement (select_item i (store w)) m user w) as [[t|e] w1] eqn:Hrun;
      [|done].
    destruct (is_success t) eqn:Hok; [|done].
    intros Hrest.
    destruct (handleMovement_success_inv _ _ _ _ _ _ Hrun Hok) as (it & Hsel & Hst).
    rewrite (select_item_stored i _ row Hrow) in Hsel. injection Hsel as <-.
    simpl in Hst.
    assert (Hrow1 : inventory_items (store w1) !! i
                    = Some (set_inv_quantity (candidate (item_of_row i row) m) row)).
    { rewrite Hst. simpl. by rewrite lookup_alter_eq, Hrow. }
    destruct (IH w1 w' _ Hrow1 Hrest) as (row' & Hrow' & Hsum).
    exists row'. split; [done|].
    assert (Hmov : movements_of i (store w1)
                   = movements_of i (store w)
                     ++ [manual_movement (item_of_row i row) m user]).
    { unfold movements_of. rewrite Hst. simpl. rewrite filter_app.
      by rewrite filter_cons_True. }
    rewrite Hmov, signed_sum_app, signed_sum_singleton in Hsum.
    rewrite (candidate_exact _ _ Hm) in Hsum.
    unfold signed in Hsum. simpl in Hsum.
    destruct (type m); lia.
Qed.

Lemma movements_account_for_stock_witness :
  Forall (λ m, two_decimals (m_quantity m) = true)
    [Shop.stock_in (of_int 3); Shop.stock_out (of_int 4); Shop.stock_in 50]
  ∧ inventory_items (store (Shop.desk (Shop.shelf (of_int 2)) [])) !! "p1"
    = Some (Shop.pomade (of_int 2) (Some 0))
  ∧ record_movements "p1" "ana"
      [Shop.stock_in (of_int 3); Shop.stock_out (of_int 4); Shop.stock_in 50]
      (Shop.desk (Shop.shelf (of_int 2)) [])
    = (true, Shop.ledger)
  ∧ ∃ row',
      inventory_items (store Shop.ledger) !! "p1" = Some row'
      ∧ signed_sum (movements_of "p1" (store Shop.ledger))
        - signed_sum (movements_of "p1" (Shop.shelf (of_int 2)))
        = inv_quantity row' - inv_quantity (Shop.pomade (of_int 2) (Some 0))
      ∧ (movements_of "p1" (Shop.shelf (of_int 2)) = [] →
           signed_sum (movements_of "p1" (store Shop.ledger))
           = inv_quantity row' - inv_quantity (Shop.pomade (of_int 2) (Some 0))).
Proof.
  assert (Htwo : Forall (λ m, two_decimals (m_quantity m) = true)
                   [Shop.stock_in (of_int 3); Shop.stock_out (of_int 4); Shop.stock_in 50])
    by (repeat constructor).
  assert (Hrow : inventory_items (store (Shop.desk (Shop.shelf (of_int 2)) [])) !! "p1"
                 = Some (Shop.pomade (of_int 2) (Some 0))) by (vm_compute; reflexivity).
  assert (Hrun : record_movements "p1" "ana"
                   [Shop.stock_in (of_int 3); Shop.stock_out (of_int 4); Shop.stock_in 50]
                   (Shop.desk (Shop.shelf (of_int 2)) [])
                 = (true, Shop.ledger)) by (vm_compute; reflexivity).
  split; [exact Htwo|]. split; [exact Hrow|]. split; [exact Hrun|].
  exact (movements_account_for_stock "p1" "ana" _ _ _ _ Htwo Hrow Hrun).
Defined.

Lemma is_low_stock_spec it :
  is_low_stock it = true
  ↔ ∃ m, min_quantity it = Some m ∧ m ≠ 0 ∧ quantity it ≤ m.
Proof.
  unfold is_low_stock, truthy. destruct (min_quantity it) as [m|]; split.
  - intros H. apply andb_true_iff in H as [Hm Hq].
    exists m. split; [done|]. split; [|by apply Z.leb_le].
    apply negb_true_iff, Z.eqb_neq in Hm. done.
  - intros (m' & [= <-] & Hm & Hq). apply andb_true_iff. split.
    + by apply negb_true_iff, Z.eqb_neq.
    + by apply Z.leb_le.
  - done.
  - by intros (m' & [=] & _).
Qed.

(** C9, at the failing input.  A pomade with quantity [0] and a configured
    minimum of [0] is at its minimum, and so is one at [-3]; neither is in
    [lowStockItems], while the dashboard filter reports the same stock. *)
Theorem zero_minimum_is_not_reported :
  lowStockItems [item_of_row "p1" (Shop.pomade 0 (Some 0))] = []
  ∧ lowStockItems [item_of_row "p1" (Shop.pomade (of_int (-3)) (Some 0))] = []
  ∧ DashboardPage.lowStock
      [ {| DashboardPage.name := "Pomada"; DashboardPage.quantity := 0;
           DashboardPage.min_quantity := Some 0 |} ]
    = [ {| DashboardPage.name := "Pomada"; DashboardPage.quantity := 0;
           DashboardPage.min_quantity := Some 0 |} ].
Proof. repeat split; vm_compute; reflexivity. Qed.

End InventoryFacts.

(** * Properties of the new-transaction screen *)

Module NewTransactionFacts.
Import Schema Client NewTransactionPage Totals ClientFacts.

Lemma fold_total_from items : ∀ acc,
  fold_left (λ sum item, sum + price item * quantity item) items acc
  = acc + items_total items.
Proof.
  induction items as [|item items IH]; intros acc; simpl; [lia|].
  rewrite IH. lia.
Qed.

Lemma calculateTotal_items_total items : calculateTotal items = items_total items.
Proof. unfold calculateTotal. rewrite fold_total_from. lia. Qed.

Lemma lines_total_itemsToInsert tid items :
  lines_total (itemsToInsert tid items) = items_total items.
Proof.
  unfold itemsToInsert. induction items as [|item items IH]; simpl; [done|].
  by rewrite IH.
Qed.

Lemma items_total_priced items items' :
  priced items' = priced items → items_total items' = items_total items.
Proof.
  revert items'. induction items as [|item items IH]; intros [|item' items']; simpl;
    try done.
  intros [= Hp Hq Hrest]. rewrite Hp, Hq. by rewrite (IH items').
Qed.

Lemma insert_transaction_items_lines rows : ∀ d d',
  insert_transaction_items rows d = Ok d' →
  transactions d' = transactions d
  ∧ transaction_items d' = transaction_items d ++ rows.
Proof.
  induction rows as [|r rows IH]; intros d d'; simpl.
  - intros [= <-]. by rewrite app_nil_r.
  - destruct (insert_transaction_item r d) as [d1|e] eqn:E; [|done].
    simpl. intros H. apply IH in H as [-> ->].
    apply SchemaFacts.insert_transaction_item_lines in E as (-> & -> & _).
    by rewrite <- app_assoc.
Qed.

(** C10.  When [handleSubmit] has stored the transaction under its new key,
    the stored total is the sum of price times quantity over the lines of
    the form, whatever became of the lines afterwards; when the submit
    succeeds the lines are stored as entered and the total is the sum over
    them.  The commissions take no part: forms that agree on prices and
    quantities have the same total. *)
Theorem stored_total_is_sum_of_lines form user tid w t w' tx :
  transactions (store w) !! tid = None →
  handleSubmit form user tid w = (Ok t, w') →
  transactions (store w') !! tid = Some tx →
  t_total tx = items_total (items form)
  ∧ t_total tx = lines_total (itemsToInsert tid (items form))
  ∧ (is_success t = true →
       transaction_items (store w')
       = transaction_items (store w) ++ itemsToInsert tid (items form))
  ∧ (∀ items', priced items' = priced (items form) → calculateTotal items' = t_total tx).
Proof.
  intros Hnew Hrun Htx.
  assert (Htot : t_total tx = items_total (items form)
                 ∧ (is_success t = true →
                      transaction_items (store w')
                      = transaction_items (store w) ++ itemsToInsert tid (items form))).
  { unfold handleSubmit in Hrun.
    destruct (empty _ || empty _ || bool_decide _).
    { injection Hrun as <- <-. congruence. }
    unfold try_catch, mbind, client_bind, mret, client_ret in Hrun.
    destruct (supabase (insert_into_transactions _ _) w) as [[[]|e] w1] eqn:E1.
    - apply supabase_effect in E1 as (_ & _ & _ & Hex). simpl in Hex.
      unfold insert_transaction in Hex. rewrite Hnew in Hex.
      destruct (supabase (insert_into_transaction_items _) w1) as [[[]|e] w2] eqn:E2.
      + injection Hrun as <- <-.
        apply supabase_effect in E2 as (_ & _ & _ & Hex2). simpl in Hex2.
        apply insert_transaction_items_lines in Hex2 as [Ht Hl].
        rewrite Ht in Htx. rewrite Hl. injection Hex as Hex.
        rewrite <- Hex in Htx |- *. simpl in *.
        rewrite lookup_insert_eq in Htx. injection Htx as <-. simpl.
        split; [apply calculateTotal_items_total|done].
      + injection Hrun as <- <-.
        apply supabase_effect in E2 as (_ & _ & Hst). rewrite Hst in Htx.
        injection Hex as Hex. rewrite <- Hex in Htx. simpl in *.
        rewrite lookup_insert_eq in Htx. injection Htx as <-. simpl.
        split; [apply calculateTotal_items_total|done].
    - injection Hrun as <- <-.
      apply supabase_effect in E1 as (_ & _ & Hst). rewrite Hst in Htx. congruence. }
  destruct Htot as [Htot Hlines]. split; [done|]. split; [|split; [done|]].
  - by rewrite lines_total_itemsToInsert.
  - intros items' Hp. rewrite calculateTotal_items_total, Htot.
    by apply items_total_priced.
Qed.

Lemma stored_total_is_sum_of_lines_witness :
  transactions (Shop.shelf (of_int 2)) !! "t2" = None
  ∧ (∃ w', handleSubmit checkout "ana" "t2" (Shop.desk (Shop.shelf (of_int 2)) [])
           = (Ok (toast_success "Transação registrada com sucesso!"), w')
           ∧ transactions (store w') !! "t2" = Some t2)
  ∧ t_total t2 = items_total (items checkout)
  ∧ t_total t2 = 4000 * 1 + 2500 * 2.
Proof.
  assert (Hnew : transactions (store (Shop.desk (Shop.shelf (of_int 2)) [])) !! "t2" = None)
    by (vm_compute; reflexivity).
  destruct (handleSubmit checkout "ana" "t2" (Shop.desk (Shop.shelf (of_int 2)) []))
    as [r w'] eqn:Hrun.
  assert (Hr : r = Ok (toast_success "Transação registrada com sucesso!")).
  { apply (f_equal fst) in Hrun. vm_compute in Hrun. symmetry. exact Hrun. }
  assert (Htx : transactions (store w') !! "t2" = Some t2).
  { apply (f_equal snd) in Hrun. simpl in Hrun. rewrite <- Hrun. vm_compute. reflexivity. }
  subst r.
  split; [exact Hnew|]. split; [by exists w'|].
  split; [|reflexivity].
  exact (proj1 (stored_total_is_sum_of_lines checkout "ana" "t2" _ _ w' t2 Hnew Hrun Htx)).
Defined.

End NewTransactionFacts.

(** * Properties of whole statements and of reachable databases *)

Module LedgerFacts.
Import Schema Notions Ledger SchemaFacts.

Lemma of_int_add a b : of_int (a + b) = of_int a + of_int b.
Proof. unfold of_int. lia. Qed.

Lemma set_inv_quantity_twice q q' row :
  set_inv_quantity q' (set_inv_quantity q row) = set_inv_quantity q' row.
Proof. reflexivity. Qed.

Lemma set_inv_quantity_same row : set_inv_quantity (inv_quantity row) row = row.
Proof. by destruct row. Qed.

Lemma decrement_by_nothing row : set_inv_quantity (inv_quantity row - of_int 0) row = row.
Proof.
  replace (inv_quantity row - of_int 0) with (inv_quantity row) by (unfold of_int; lia).
  apply set_inv_quantity_same.
Qed.

Lemma sold_service i r : ti_type r = SERVICE → sold i [r] = 0.
Proof.
  intros Hty. unfold sold. simpl.
  rewrite bool_decide_eq_false_2; [lia|]. rewrite Hty. by intros [[=] _].
Qed.

Lemma sold_hit r item :
  ti_type r = PRODUCT → ti_inventory_item_id r = Some item → sold item [r] = ti_quantity r.
Proof.
  intros Hty Hit. unfold sold. simpl. rewrite bool_decide_eq_true_2 by done. lia.
Qed.

Lemma sold_miss i r item :
  ti_inventory_item_id r = Some item → item ≠ i → sold i [r] = 0.
Proof.
  intros Hit Hne. unfold sold. simpl.
  rewrite bool_decide_eq_false_2; [lia|]. rewrite Hit. intros [_ [= ?]]. done.
Qed.

Lemma sale_movements_service d r : ti_type r = SERVICE → sale_movements d [r] = [].
Proof. intros Hty. unfold sale_movements. simpl. by rewrite Hty. Qed.

Lemma sale_movements_product d r item tx :
  ti_type r = PRODUCT → ti_inventory_item_id r = Some item →
  transactions d !! ti_transaction_id r = Some tx →
  sale_movements d [r] = [sale_movement r item (t_created_by tx)].
Proof. intros Hty Hit Htx. unfold sale_movements. simpl. by rewrite Hty, Hit, Htx. Qed.

(** One accepted row: the line is appended, the transactions stay, and
    stock and movements change by what this one line sells. *)
Lemma insert_transaction_item_effect r d d' :
  insert_transaction_item r d = Ok d' →
  transactions d' = transactions d
  ∧ transaction_items d' = transaction_items d ++ [r]
  ∧ (∀ i, inventory_items d' !! i
          = (λ row, set_inv_quantity (inv_quantity row - of_int (sold i [r])) row)
              <$> inventory_items d !! i)
  ∧ inventory_movements d' = inventory_movements d ++ sale_movements d [r].
Proof.
  intros H. pose proof (insert_transaction_item_lines _ _ _ H) as (Hl & Ht & _).
  apply insert_transaction_item_inv in H as (Hc & [tx Htx] & Hfk & Htr).
  split; [done|]. split; [done|].
  destruct (ti_type r) eqn:Hty.
  - rewrite trigger_on_service in Htr by done.
    rewrite sale_movements_service by done. injection Htr as <-.
    split; [|by rewrite app_nil_r].
    intros i. rewrite sold_service by done. simpl.
    destruct (inventory_items d !! i) as [row|]; simpl; [|done].
    by rewrite decrement_by_nothing.
  - destruct (product_line_has_item r Hc Hty) as [item Hit].
    destruct (Hfk item Hit) as [row Hrow].
    rewrite (trigger_on_product r (with_item r d) item row tx) in Htr by done.
    rewrite (sale_movements_product d r item tx) by done.
    injection Htr as <-. split; [|done].
    intros i. destruct (decide (item = i)) as [<-|Hne].
    + rewrite sold_hit by done. simpl. by rewrite lookup_insert_eq, Hrow.
    + rewrite (sold_miss i r item) by done. simpl. rewrite lookup_insert_ne by done.
      destruct (inventory_items d !! i) as [row'|]; simpl; [|done].
      by rewrite decrement_by_nothing.
Qed.

Lemma sold_cons i r rows : sold i (r :: rows) = sold i [r] + sold i rows.
Proof. unfold sold. simpl. lia. Qed.

Lemma sale_movements_cons d r rows :
  sale_movements d (r :: rows) = sale_movements d [r] ++ sale_movements d rows.
Proof. unfold sale_movements. simpl. by rewrite app_nil_r. Qed.

Lemma sale_movements_transactions d d' rows :
  transactions d' = transactions d → sale_movements d' rows = sale_movements d rows.
Proof. intros H. unfold sale_movements. by rewrite H. Qed.

(** X2.  An accepted multi-row insert into [transaction_items] appends the
    rows in order, leaves the transactions alone, lowers the stock of every
    inventory item by the units the product lines among the rows sell of it,
    and appends one movement per product line, in the order of the rows. *)
Theorem statement_sells_what_its_lines_sell rows : ∀ d d',
  insert_transaction_items rows d = Ok d' →
  transactions d' = transactions d
  ∧ transaction_items d' = transaction_items d ++ rows
  ∧ (∀ i, inventory_items d' !! i
          = (λ row, set_inv_quantity (inv_quantity row - of_int (sold i rows)) row)
              <$> inventory_items d !! i)
  ∧ inventory_movements d' = inventory_movements d ++ sale_movements d rows.
Proof.
  induction rows as [|r rows IH]; intros d d' H; simpl in H.
  - injection H as <-. rewrite !app_nil_r. split; [done|]. split; [done|].
    split; [|done]. intros i. destruct (inventory_items d !! i) as [row|]; simpl; [|done].
    change (sold i []) with 0. by rewrite decrement_by_nothing.
  - destruct (insert_transaction_item r d) as [d1|e] eqn:E; [|done].
    simpl in H. apply IH in H as (Ht & Hl & Hs & Hm).
    apply insert_transaction_item_effect in E as (Ht1 & Hl1 & Hs1 & Hm1).
    split; [congruence|]. split; [by rewrite Hl, Hl1, <- app_assoc|]. split.
    + intros i. rewrite Hs, Hs1, (sold_cons i r rows), of_int_add.
      destruct (inventory_items d !! i) as [row|]; simpl; [|done].
      unfold set_inv_quantity. simpl. do 2 f_equal. lia.
    + rewrite Hm, Hm1, (sale_movements_transactions d d1) by done.
      by rewrite (sale_movements_cons d r rows), <- app_assoc.
Qed.

Lemma statement_sells_what_its_lines_sell_witness :
  ∃ d',
    insert_transaction_items [Shop.sale; Shop.haircut; Shop.sale] (Shop.shelf (of_int 2)) = Ok d'
    ∧ transaction_items d' = [] ++ [Shop.sale; Shop.haircut; Shop.sale]
    ∧ stock "p1" d' = Some (of_int 2 - of_int (5 + 0 + 5))
    ∧ length (inventory_movements d') = 2%nat.
Proof.
  destruct (insert_transaction_items [Shop.sale; Shop.haircut; Shop.sale]
              (Shop.shelf (of_int 2))) as [d'|e] eqn:E;
    [|vm_compute in E; discriminate].
  destruct (statement_sells_what_its_lines_sell _ _ _ E) as (_ & Hl & Hs & Hm).
  exists d'. split; [reflexivity|]. split; [exact Hl|]. split.
  - unfold stock. rewrite Hs. vm_compute. reflexivity.
  - rewrite Hm. vm_compute. reflexivity.
Defined.

Lemma insert_transaction_items_checked rows : ∀ d d',
  insert_transaction_items rows d = Ok d' →
  Forall (λ r, is_Some (transactions d !! ti_transaction_id r)
               ∧ ∀ item, ti_inventory_item_id r = Some item →
                         is_Some (inventory_items d !! item)) rows.
Proof.
  induction rows as [|r rows IH]; intros d d' H; simpl in H; [constructor|].
  destruct (insert_transaction_item r d) as [d1|e] eqn:E; [|done].
  simpl in H. apply IH in H.
  pose proof (insert_transaction_item_effect _ _ _ E) as (Ht & _ & Hs & _).
  apply insert_transaction_item_inv in E as (_ & Htx & Hfk & _).
  constructor; [done|].
  eapply Forall_impl; [exact H|]. simpl. intros r' [Htx' Hfk']. split.
  - by rewrite <- Ht.
  - intros item Hit. specialize (Hfk' item Hit). rewrite Hs in Hfk'.
    by apply fmap_is_Some in Hfk'.
Qed.

Lemma sale_movements_items d rows :
  Forall (λ m, ∃ r, r ∈ rows ∧ ti_inventory_item_id r = Some (mv_item_id m))
         (sale_movements d rows).
Proof.
  apply Forall_forall. intros m Hm. unfold sale_movements in Hm.
  apply list_elem_of_bind in Hm as (r & Hm & Hr). exists r. split; [done|].
  destruct (ti_type r); [by apply elem_of_nil in Hm|].
  destruct (ti_inventory_item_id r) as [item|]; [|by apply elem_of_nil in Hm].
  destruct (transactions d !! ti_transaction_id r); [|by apply elem_of_nil in Hm].
  apply list_elem_of_singleton in Hm. by subst m.
Qed.

Lemma exec_references s d d' :
  exec s d = Ok d' → references_hold d → references_hold d'.
Proof.
  unfold references_hold. intros Hex [Hl Hm]. destruct s; simpl in Hex.
  - unfold insert_transaction in Hex. destruct (transactions d !! id) eqn:E; [done|].
    injection Hex as <-. simpl. split; [|done].
    eapply Forall_impl; [exact Hl|]. simpl. intros r [Htx Hfk]. split; [|done].
    apply lookup_insert_is_Some. destruct (decide (id = ti_transaction_id r)); auto.
  - pose proof (insert_transaction_items_checked _ _ _ Hex) as Hnew.
    apply statement_sells_what_its_lines_sell in Hex as (Ht & -> & Hs & ->).
    assert (Hkeys : ∀ i, is_Some (inventory_items d !! i) → is_Some (inventory_items d' !! i)).
    { intros i Hi. rewrite Hs. by apply fmap_is_Some. }
    split.
    + apply Forall_app. split; (eapply Forall_impl; [eassumption|]); simpl;
        intros r [Htx Hfk]; (split; [by rewrite Ht|]); intros item Hit; auto.
    + apply Forall_app. split; [eapply Forall_impl; [exact Hm|]; simpl; auto|].
      eapply Forall_impl; [apply sale_movements_items|]. simpl.
      intros m (r & Hr & Hit). apply Hkeys.
      by apply (proj2 (proj1 (Forall_forall _ _) Hnew r Hr)).
  - unfold insert_inventory_item in Hex. destruct (inventory_items d !! id) eqn:E; [done|].
    injection Hex as <-. simpl.
    assert (Hkeys : ∀ i, is_Some (inventory_items d !! i)
                         → is_Some (<[id := row]> (inventory_items d) !! i)).
    { intros i Hi. apply lookup_insert_is_Some. destruct (decide (id = i)); auto. }
    split; (eapply Forall_impl; [eassumption|]); simpl; [|auto].
    intros r [Htx Hfk]. split; [done|]. intros item Hit. auto.
  - unfold insert_movement in Hex. destruct (inventory_items d !! mv_item_id row) eqn:E; [|done].
    injection Hex as <-. simpl. split; [done|]. apply Forall_app. split; [done|].
    constructor; [|constructor]. rewrite E. eauto.
  - injection Hex as <-. simpl.
    assert (Hkeys : ∀ i, is_Some (inventory_items d !! i)
                         → is_Some (alter (λ r, set_inv_quantity quantity r) id
                                      (inventory_items d) !! i)).
    { intros i Hi. rewrite lookup_alter. case_decide; [subst|done]. by apply fmap_is_Some. }
    split; (eapply Forall_impl; [eassumption|]); simpl; [|auto].
    intros r [Htx Hfk]. split; [done|]. intros item Hit. auto.
  - injection Hex as <-. simpl. split; [|done].
    apply Forall_forall. intros r Hr. apply list_elem_of_filter in Hr as [Hne Hr].
    destruct (proj1 (Forall_forall _ _) Hl r Hr) as [Htx Hfk]. split; [|done].
    by rewrite lookup_delete_ne.
Qed.

(** X1.  In every database the application can produce the foreign keys
    among the four tables hold: every stored line belongs to a stored
    transaction and names, if any, a stored inventory item, and every
    movement belongs to a stored inventory item. *)
Theorem reachable_references_hold d : reachable d → references_hold d.
Proof.
  induction 1 as [|s d d' _ IH Hs].
  - split; constructor.
  - by eapply exec_references.
Qed.

Lemma reachable_references_hold_witness :
  reachable (Shop.after_sale (of_int 2)) ∧ references_hold (Shop.after_sale (of_int 2)).
Proof.
  assert (Hr : reachable (Shop.after_sale (of_int 2))).
  { apply (reachable_exec (insert_into_transaction_items [Shop.sale])
             (Shop.shelf (of_int 2))).
    - apply shelf_reachable.
    - vm_compute. reflexivity. }
  split; [exact Hr|]. exact (reachable_references_hold _ Hr).
Defined.

(** X3.  Deleting the transaction of an accepted product line removes the
    line with it, but gives nothing back: the item keeps the lowered
    quantity and the movement stays, its note naming a transaction that is
    no longer stored. *)
Theorem deleting_a_sale_returns_no_stock r d d' item row :
  ti_type r = PRODUCT →
  ti_inventory_item_id r = Some item →
  inventory_items d !! item = Some row →
  insert_transaction_item r d = Ok d' →
  ∃ d2 m,
    exec (delete_from_transactions (ti_transaction_id r)) d' = Ok d2
    ∧ transactions d2 !! ti_transaction_id r = None
    ∧ (r ∉ transaction_items d2)
    ∧ inventory_items d2 !! item
      = Some (set_inv_quantity (inv_quantity row - of_int (ti_quantity r)) row)
    ∧ inventory_movements d2 = inventory_movements d ++ [m]
    ∧ mv_notes m = Some ("Venda automática - Transaction ID: " +:+ ti_transaction_id r).
Proof.
  intros Hty Hit Hrow H.
  destruct (product_sale_moves_stock_aux r d d' item row Hty Hit Hrow H)
    as (tx & _ & Hs & _ & Hm).
  eexists _, _. split; [reflexivity|]. simpl. split; [apply lookup_delete_eq|].
  split; [|split; [exact Hs|split; [exact Hm|reflexivity]]].
  intros Hin. apply list_elem_of_filter in Hin as [Hne _]. done.
Qed.

Lemma deleting_a_sale_returns_no_stock_witness :
  ∃ d2 m,
    exec (delete_from_transactions "t1") (Shop.after_sale (of_int 2)) = Ok d2
    ∧ transactions d2 !! "t1" = None
    ∧ (Shop.sale ∉ transaction_items d2)
    ∧ inventory_items d2 !! "p1"
      = Some (set_inv_quantity (of_int 2 - of_int 5) (Shop.pomade (of_int 2) (Some 0)))
    ∧ inventory_movements d2 = [] ++ [m]
    ∧ mv_notes m = Some ("Venda automática - Transaction ID: " +:+ "t1").
Proof.
  apply (deleting_a_sale_returns_no_stock Shop.sale (Shop.shelf (of_int 2))
           (Shop.after_sale (of_int 2)) "p1" (Shop.pomade (of_int 2) (Some 0)));
    vm_compute; reflexivity.
Defined.

End LedgerFacts.

(** * Properties of the new-transaction form *)

Module NewTransactionScreenFacts.
Import Schema Client NewTransactionPage NewTransactionScreen Totals Notions.
Import ClientFacts SchemaFacts NewTransactionFacts.

Lemma filter_indexed_all {A} (p : A → nat → bool) (l : list A) : ∀ k,
  (∀ x i, (k ≤ i)%nat → p x i = true) → filter_indexed p k l = l.
Proof.
  induction l as [|x l IH]; intros k Hp; simpl; [done|].
  rewrite Hp by lia. f_equal. apply IH. intros y i Hi. apply Hp. lia.
Qed.

Lemma filter_indexed_skip {A} (l : list A) : ∀ k j,
  filter_indexed (λ _ i, negb (i =? j)%nat) k l
  = if bool_decide (k ≤ j)%nat then delete (j - k)%nat l else l.
Proof.
  induction l as [|x l IH]; intros k j; simpl.
  - by case_bool_decide.
  - destruct (k =? j)%nat eqn:E; simpl.
    + apply Nat.eqb_eq in E as ->. rewrite bool_decide_eq_true_2 by lia.
      rewrite Nat.sub_diag. simpl. apply filter_indexed_all.
      intros y i Hi. apply negb_true_iff, Nat.eqb_neq. lia.
    + apply Nat.eqb_neq in E. rewrite IH. case_bool_decide as Hle.
      * rewrite bool_decide_eq_true_2 by lia.
        replace (j - k)%nat with (S (j - S k)) by lia. done.
      * rewrite bool_decide_eq_false_2 by lia. done.
Qed.

Lemma removeItem_delete index items : removeItem index items = delete index items.
Proof.
  unfold removeItem. rewrite filter_indexed_skip.
  rewrite bool_decide_eq_true_2 by lia. by rewrite Nat.sub_0_r.
Qed.

Lemma items_total_delete items : ∀ index,
  items_total (delete index items)
  = items_total items
    - match items !! index with
      | Some item => price item * quantity item
      | None => 0
      end.
Proof.
  induction items as [|item items IH]; intros [|index]; simpl; try lia.
  rewrite IH. lia.
Qed.

(** X9.  [removeItem] takes out the line at [index] and no other: the
    lines before and after keep their order, and the total shown goes down
    by that line's price times quantity.  An index past the end changes
    nothing. *)
Theorem removeItem_takes_one_line index items :
  removeItem index items = take index items ++ drop (S index) items
  ∧ calculateTotal (removeItem index items)
    = calculateTotal items
      - match items !! index with
        | Some item => price item * quantity item
        | None => 0
        end
  ∧ ((length items ≤ index)%nat → removeItem index items = items).
Proof.
  rewrite removeItem_delete. split; [|split].
  - by rewrite delete_take_drop.
  - rewrite !calculateTotal_items_total. apply items_total_delete.
  - intros Hge. rewrite delete_take_drop.
    rewrite take_ge, drop_ge by lia. by rewrite app_nil_r.
Qed.

Lemma find_service_head service services :
  find_service (s_id service) (service :: services) = Some service.
Proof.
  unfold find_service. simpl. rewrite decide_True by done. done.
Qed.

Lemma find_service_listed value services :
  value ∈ s_id <$> services →
  ∃ service, find_service value services = Some service ∧ s_id service = value.
Proof.
  intros Hin. apply list_elem_of_fmap in Hin as (s & -> & Hs).
  destruct (list_find_elem_of (λ s', s_id s' = s_id s) services s Hs eq_refl)
    as [[i s'] Hfind].
  exists s'. unfold find_service. rewrite Hfind. simpl. split; [done|].
  by apply list_find_Some in Hfind as (_ & ? & _).
Qed.

Lemma shows_inv ty index items :
  shows ty index items = true → ∃ item, items !! index = Some item ∧ type item = ty.
Proof.
  unfold shows. destruct (items !! index) as [item|]; [|done].
  intros H. apply bool_decide_eq_true in H. eauto.
Qed.

(** Every click keeps the lines as the screen builds them. *)
Lemma press_keeps_screen_lines services products c items items' :
  Forall (screen_line services) items →
  press services products c items = Some items' →
  Forall (screen_line services) items'.
Proof.
  intros Hall. destruct c as [ty|index|index value|index value|index value|index value];
    simpl.
  - intros [= <-]. unfold addItem.
    destruct ty, services as [|service services], products as [|product products];
      try done; apply Forall_app; (split; [done|]); constructor; try constructor;
      unfold screen_line; simpl; eauto using find_service_head.
  - case_bool_decide; [|done]. intros [= <-]. rewrite removeItem_delete.
    by apply Forall_delete.
  - destruct (shows SERVICE index items) eqn:Hshow; simpl; [|done].
    case_bool_decide as Hin; [|done].
    apply shows_inv in Hshow as (item & Hitem & Hty).
    destruct (find_service_listed value services Hin) as (service & Hfind & Hid).
    unfold updateItem. rewrite Hitem. simpl. rewrite bool_decide_eq_true_2 by done.
    rewrite Hfind. intros [= <-]. apply Forall_insert; [done|].
    pose proof (proj1 (Forall_lookup _ _) Hall index item Hitem) as Hline.
    unfold screen_line in *. simpl. rewrite Hty in *. destruct Hline as [_ Hc].
    split; [|done]. exists service. by rewrite Hid.
  - destruct (shows PRODUCT index items) eqn:Hshow; simpl; [|done].
    case_bool_decide as Hin; [|done].
    apply shows_inv in Hshow as (item & Hitem & Hty).
    unfold updateItem. rewrite Hitem. simpl. intros [= <-].
    apply Forall_insert; [done|].
    pose proof (proj1 (Forall_lookup _ _) Hall index item Hitem) as Hline.
    unfold screen_line in *. simpl. rewrite Hty in *. destruct Hline as [_ Hc]. eauto.
  - destruct (shows PRODUCT index items) eqn:Hshow; simpl; [|done].
    apply shows_inv in Hshow as (item & Hitem & Hty).
    unfold updateItem. rewrite Hitem. simpl. intros [= <-].
    apply Forall_insert; [done|].
    pose proof (proj1 (Forall_lookup _ _) Hall index item Hitem) as Hline.
    unfold screen_line in *. simpl. by rewrite Hty in *.
  - unfold updateItem. destruct (items !! index) as [item|] eqn:Hitem; [|done].
    simpl. intros [= <-]. apply Forall_insert; [done|].
    pose proof (proj1 (Forall_lookup _ _) Hall index item Hitem) as Hline.
    unfold screen_line in *. simpl. done.
Qed.

Lemma presses_keep_screen_lines services products cs : ∀ items items',
  Forall (screen_line services) items →
  presses services products cs items = Some items' →
  Forall (screen_line services) items'.
Proof.
  induction cs as [|c cs IH]; intros items items' Hall; simpl.
  - by intros [= <-].
  - destruct (press services products c items) as [items1|] eqn:E; [|done].
    simpl. apply IH. by eapply press_keeps_screen_lines.
Qed.

Lemma screen_line_passes_check services tid item :
  screen_line services item →
  Forall (λ r, check_item_type r = true) (itemsToInsert tid [item]).
Proof.
  intros Hline. constructor; [|constructor].
  unfold screen_line in Hline. unfold check_item_type. simpl.
  destruct (type item); simpl.
  - destruct Hline as [(service & -> & _) _]. done.
  - destruct Hline as [[v ->] _]. done.
Qed.

(** X7.  Whatever the operator clicks, starting from the empty form, every
    row [handleSubmit] would send passes [check_item_type]: a form built on
    the screen is never refused for its kind and references. *)
Theorem screen_forms_pass_the_check services products cs items tid :
  presses services products cs [] = Some items →
  Forall (λ r, check_item_type r = true) (itemsToInsert tid items).
Proof.
  intros Hrun.
  assert (Hall : Forall (screen_line services) items).
  { eapply presses_keep_screen_lines; [|exact Hrun]. constructor. }
  clear Hrun. induction Hall as [|item items Hline _ IH]; [constructor|].
  change (itemsToInsert tid (item :: items))
    with (itemsToInsert tid [item] ++ itemsToInsert tid items).
  apply Forall_app. split; [|done]. by eapply screen_line_passes_check.
Qed.

Lemma screen_forms_pass_the_check_witness :
  presses menu counter clicks [] = Some built
  ∧ Forall (λ r, check_item_type r = true) (itemsToInsert "t2" built).
Proof.
  assert (Hrun : presses menu counter clicks [] = Some built) by (vm_compute; reflexivity).
  split; [exact Hrun|].
  exact (screen_forms_pass_the_check menu counter clicks built "t2" Hrun).
Defined.

Lemma fold_commission_from items : ∀ acc,
  fold_left (λ sum item, sum + commission item * quantity item) items acc
  = acc + fold_left (λ sum item, sum + commission item * quantity item) items 0.
Proof.
  induction items as [|item items IH]; intros acc; simpl; [lia|].
  rewrite IH, (IH (0 + _)). lia.
Qed.

Lemma calculateCommission_cons item items :
  calculateCommission (item :: items)
  = commission item * quantity item + calculateCommission items.
Proof. unfold calculateCommission. simpl. rewrite fold_commission_from. lia. Qed.

(** X8.  On a form built by clicks from the empty form, every SERVICE line
    carries the price the catalogue gives for the service it names, and the
    commission shown is five per unit of product, whatever prices and
    quantities were typed. *)
Theorem screen_forms_price_and_commission services products cs items :
  presses services products cs [] = Some items →
  (∀ item, item ∈ items → type item = SERVICE →
     ∃ service, serviceId item = Some (s_id service)
                ∧ find_service (s_id service) services = Some service
                ∧ price item = s_price service)
  ∧ calculateCommission items = of_int 5 * product_units items.
Proof.
  intros Hrun.
  assert (Hall : Forall (screen_line services) items).
  { eapply presses_keep_screen_lines; [|exact Hrun]. constructor. }
  clear Hrun. split.
  - intros item Hin Hty. pose proof (proj1 (Forall_forall _ _) Hall item Hin) as Hline.
    unfold screen_line in Hline. rewrite Hty in Hline. tauto.
  - induction Hall as [|item items Hline _ IH]; [done|].
    rewrite calculateCommission_cons, IH. unfold product_units. simpl.
    unfold screen_line in Hline. destruct (type item); simpl.
    + destruct Hline as [_ ->]. lia.
    + destruct Hline as [_ ->]. lia.
Qed.

Lemma screen_forms_price_and_commission_witness :
  presses menu counter clicks [] = Some built
  ∧ calculateCommission built = of_int 5 * 2.
Proof.
  assert (Hrun : presses menu counter clicks [] = Some built) by (vm_compute; reflexivity).
  split; [exact Hrun|].
  exact (proj2 (screen_forms_price_and_commission menu counter clicks built Hrun)).
Defined.

Lemma complete_form_passes form :
  ¬ incomplete form →
  empty (selectedBarberId form) || empty (selectedPaymentMethodId form)
  || bool_decide (length (items form) = 0%nat) = false.
Proof.
  intros Hc. unfold incomplete, empty in *.
  repeat (apply orb_false_intro); apply bool_decide_eq_false_2; intros H; apply Hc; auto.
  right. right. by apply length_zero_iff_nil.
Qed.

Lemma incomplete_form_stops form :
  incomplete form →
  empty (selectedBarberId form) || empty (selectedPaymentMethodId form)
  || bool_decide (length (items form) = 0%nat) = true.
Proof.
  unfold incomplete, empty. intros [H|[H|H]]; rewrite H; simpl;
    rewrite ?orb_true_r; done.
Qed.

Lemma classic_incomplete form : incomplete form ∨ ¬ incomplete form.
Proof.
  unfold incomplete.
  destruct (decide (selectedBarberId form = "")); [by left; left|].
  destruct (decide (selectedPaymentMethodId form = "")); [by left; right; left|].
  destruct (items form); [by left; right; right|].
  right. intros [?|[?|?]]; done.
Qed.

(** [handleSubmit] on a complete form, call by call. *)
Lemma handleSubmit_complete form user tid w :
  ¬ incomplete form →
  handleSubmit form user tid w =
    match supabase (insert_into_transactions tid (header form user)) w with
    | (Err e, w1) => (Ok (toast_error_message e "Erro ao registrar transação"), w1)
    | (Ok _, w1) =>
        match supabase (insert_into_transaction_items (itemsToInsert tid (items form))) w1 with
        | (Err e, w2) => (Ok (toast_error_message e "Erro ao registrar transação"), w2)
        | (Ok _, w2) => (Ok (toast_success "Transação registrada com sucesso!"), w2)
        end
    end.
Proof.
  intros Hc. unfold handleSubmit. rewrite complete_form_passes by done.
  unfold try_catch, mbind, client_bind, mret, client_ret. fold (header form user).
  destruct (supabase (insert_into_transactions _ _) w) as [[[]|e] w1]; [|done].
  by destruct (supabase (insert_into_transaction_items _) w1) as [[[]|e] w2].
Qed.

(** X4.  [handleSubmit] sends nothing exactly when the form lacks a
    barber, a payment method or lines, and then shows the fill-in message
    and leaves the world as it was; on a complete form the first statement
    it sends is the insert of the transaction, followed by at most one
    more. *)
Theorem handleSubmit_sends_nothing_iff_incomplete form user tid w t w' :
  handleSubmit form user tid w = (t, w') →
  (sent w' = sent w ↔ incomplete form)
  ∧ (incomplete form →
       t = Ok (toast_error "Preencha todos os campos obrigatórios") ∧ w' = w)
  ∧ (¬ incomplete form →
       ∃ rest, sent w' = sent w ++ insert_into_transactions tid (header form user) :: rest
               ∧ (length rest ≤ 1)%nat).
Proof.
  intros Hrun.
  assert (Hstop : incomplete form →
            t = Ok (toast_error "Preencha todos os campos obrigatórios") ∧ w' = w).
  { intros Hi. unfold handleSubmit in Hrun. rewrite incomplete_form_stops in Hrun by done.
    by injection Hrun as <- <-. }
  assert (Hgo : ¬ incomplete form →
            ∃ rest, sent w' = sent w ++ insert_into_transactions tid (header form user) :: rest
                    ∧ (length rest ≤ 1)%nat).
  { intros Hc. rewrite handleSubmit_complete in Hrun by done.
    destruct (supabase (insert_into_transactions _ _) w) as [[[]|e] w1] eqn:E1.
    - apply supabase_effect in E1 as (Hs1 & _).
      destruct (supabase (insert_into_transaction_items _) w1) as [[[]|e] w2] eqn:E2;
        apply supabase_effect in E2 as (Hs2 & _); injection Hrun as <- <-;
        (eexists [_]; split; [by rewrite Hs2, Hs1, <- app_assoc|simpl; lia]).
    - apply supabase_effect in E1 as (Hs1 & _). injection Hrun as <- <-.
      exists []. split; [done|simpl; lia]. }
  split; [|split; [exact Hstop|exact Hgo]].
  split.
  - intros Hsame. destruct (decide (selectedBarberId form = "")) as [|Hb]; [by left|].
    destruct (decide (selectedPaymentMethodId form = "")) as [|Hp]; [by right; left|].
    destruct (items form) as [|item l] eqn:Hitems; [by right; right|].
    exfalso. destruct Hgo as (rest & Hrest & _).
    { unfold incomplete. rewrite Hitems. intros [?|[?|?]]; done. }
    rewrite Hsame in Hrest. apply (f_equal length) in Hrest.
    rewrite length_app in Hrest. simpl in Hrest. lia.
  - intros Hi. by destruct (Hstop Hi) as [_ ->].
Qed.

Lemma handleSubmit_sends_nothing_iff_incomplete_witness :
  ∃ t w',
    handleSubmit (order []) "ana" "t2" (Shop.desk (Shop.shelf (of_int 2)) []) = (t, w')
    ∧ incomplete (order [])
    ∧ t = Ok (toast_error "Preencha todos os campos obrigatórios")
    ∧ w' = Shop.desk (Shop.shelf (of_int 2)) [].
Proof.
  destruct (handleSubmit (order []) "ana" "t2" (Shop.desk (Shop.shelf (of_int 2)) []))
    as [t w'] eqn:Hrun.
  assert (Hi : incomplete (order [])) by (right; right; reflexivity).
  exists t, w'. split; [reflexivity|]. split; [exact Hi|].
  exact (proj1 (proj2 (handleSubmit_sends_nothing_iff_incomplete _ _ _ _ _ _ Hrun)) Hi).
Defined.

Lemma insert_transaction_fresh tid row d :
  transactions d !! tid = None →
  exec (insert_into_transactions tid row) d = Ok (with_transaction tid row d).
Proof. intros Hnew. simpl. unfold insert_transaction. by rewrite Hnew. Qed.

(** X5.  The two inserts of [handleSubmit] are not one unit.  When the
    transaction is stored and the insert of its lines then fails, because
    the round trip fails or because the database rejects a row, the
    operator sees the error while the transaction stays stored with the
    full total and without any line; stock and movements are untouched. *)
Theorem handleSubmit_can_leave_a_transaction_without_lines form user tid w :
  ¬ incomplete form →
  transactions (store w) !! tid = None →
  up (link w) = true →
  up (tail (link w)) = false
  ∨ is_ok (insert_transaction_items (itemsToInsert tid (items form))
             (with_transaction tid (header form user) (store w))) = false →
  ∃ e w',
    handleSubmit form user tid w
    = (Ok (toast_error_message e "Erro ao registrar transação"), w')
    ∧ store w' = with_transaction tid (header form user) (store w)
    ∧ t_total <$> transactions (store w') !! tid = Some (items_total (items form))
    ∧ transaction_items (store w') = transaction_items (store w)
    ∧ inventory_items (store w') = inventory_items (store w)
    ∧ inventory_movements (store w') = inventory_movements (store w).
Proof.
  intros Hc Hnew Hup Hfail. rewrite handleSubmit_complete by done.
  rewrite (supabase_reaches _ w (with_transaction tid (header form user) (store w)))
    by (done || by apply insert_transaction_fresh).
  set (w1 := {| store := with_transaction tid (header form user) (store w);
                sent := sent w ++ [insert_into_transactions tid (header form user)];
                link := tail (link w) |}).
  assert (∃ e, supabase (insert_into_transaction_items (itemsToInsert tid (items form))) w1
               = (Err e, {| store := store w1;
                            sent := sent w1 ++ [insert_into_transaction_items
                                                  (itemsToInsert tid (items form))];
                            link := tail (link w1) |})) as [e ->].
  { destruct (up (link w1)) eqn:Hup1.
    - destruct Hfail as [Hdown|Hrej]; [simpl in Hup1; congruence|].
      destruct (insert_transaction_items _ _) as [d2|e] eqn:E; [done|].
      exists (rejected e). by apply supabase_rejected.
    - exists unreachable. by apply supabase_unreachable. }
  eexists _, _. split; [reflexivity|]. simpl. split; [done|]. split; [|done].
  rewrite lookup_insert_eq. simpl. by rewrite calculateTotal_items_total.
Qed.

Lemma handleSubmit_can_leave_a_transaction_without_lines_witness :
  ∃ e w',
    handleSubmit (order gone) "ana" "t2" (Shop.desk (Shop.shelf (of_int 2)) [])
    = (Ok (toast_error_message e "Erro ao registrar transação"), w')
    ∧ store w' = with_transaction "t2" (header (order gone) "ana") (Shop.shelf (of_int 2))
    ∧ t_total <$> transactions (store w') !! "t2" = Some (items_total gone)
    ∧ transaction_items (store w') = []
    ∧ inventory_items (store w') = inventory_items (Shop.shelf (of_int 2))
    ∧ inventory_movements (store w') = [].
Proof.
  apply (handleSubmit_can_leave_a_transaction_without_lines (order gone) "ana" "t2"
           (Shop.desk (Shop.shelf (of_int 2)) [])).
  - intros [H|[H|H]]; discriminate H.
  - vm_compute. reflexivity.
  - reflexivity.
  - right. vm_compute. reflexivity.
Defined.

Lemma itemsToInsert_transaction_id tid items :
  Forall (λ r, ti_transaction_id r = tid) (itemsToInsert tid items).
Proof. unfold itemsToInsert. induction items; simpl; by constructor. Qed.

Lemma sale_movements_actor d rows tid tx :
  Forall (λ r, ti_transaction_id r = tid) rows →
  transactions d !! tid = Some tx →
  Forall (λ m, mv_created_by m = t_created_by tx ∧ mv_type m = movement_out)
         (Ledger.sale_movements d rows).
Proof.
  intros Hall Htx. apply Forall_forall. intros m Hm. unfold Ledger.sale_movements in Hm.
  apply list_elem_of_bind in Hm as (r & Hm & Hr).
  rewrite (proj1 (Forall_forall _ _) Hall r Hr), Htx in Hm.
  destruct (ti_type r); [by apply elem_of_nil in Hm|].
  destruct (ti_inventory_item_id r) as [item|]; [|by apply elem_of_nil in Hm].
  apply list_elem_of_singleton in Hm. by subst m.
Qed.

(** X6.  A submit that succeeds has stored the transaction under its key
    and its lines after the lines already there; the stock of every
    inventory item is lower by the units the form sells of it, whatever the
    stock was; and one movement per product line is appended, each of
    direction [out] and with the submitting user as actor. *)
Theorem handleSubmit_success_effect form user tid w t w' :
  handleSubmit form user tid w = (Ok t, w') →
  is_success t = true →
  transactions (store w') = <[tid := header form user]> (transactions (store w))
  ∧ transaction_items (store w')
    = transaction_items (store w) ++ itemsToInsert tid (items form)
  ∧ (∀ i, inventory_items (store w') !! i
          = (λ row, set_inv_quantity
                      (inv_quantity row
                       - of_int (Ledger.sold i (itemsToInsert tid (items form)))) row)
              <$> inventory_items (store w) !! i)
  ∧ ∃ ms, inventory_movements (store w') = inventory_movements (store w) ++ ms
          ∧ length ms = product_lines (itemsToInsert tid (items form))
          ∧ Forall (λ m, mv_created_by m = user ∧ mv_type m = movement_out) ms.
Proof.
  intros Hrun Hok.
  destruct (classic_incomplete form) as [Hi|Hc].
  { unfold handleSubmit in Hrun. rewrite incomplete_form_stops in Hrun by done.
    by injection Hrun as <- <-. }
  rewrite handleSubmit_complete in Hrun by done.
  destruct (supabase (insert_into_transactions _ _) w) as [[[]|e] w1] eqn:E1;
    [|by injection Hrun as <- <-].
  destruct (supabase (insert_into_transaction_items _) w1) as [[[]|e] w2] eqn:E2;
    [|by injection Hrun as <- <-].
  injection Hrun as <- <-.
  apply supabase_effect in E1 as (_ & _ & _ & Hex1). simpl in Hex1.
  unfold insert_transaction in Hex1.
  destruct (transactions (store w) !! tid) eqn:Hnew; [done|]. injection Hex1 as Hd1.
  apply supabase_effect in E2 as (_ & _ & _ & Hex2). simpl in Hex2.
  pose proof (statement_writes_one_movement_per_product _ _ _ Hex2) as (ms & Hms & Hlen & _).
  apply LedgerFacts.statement_sells_what_its_lines_sell in Hex2 as (Ht & Hl & Hs & Hm).
  rewrite <- Hd1 in Ht, Hl, Hs, Hm, Hms. simpl in *.
  split; [done|]. split; [done|]. split; [done|].
  exists ms. split; [done|]. split; [done|].
  rewrite Hm in Hms. apply app_inv_head in Hms. subst ms.
  apply (sale_movements_actor _ _ tid (header form user)).
  - apply itemsToInsert_transaction_id.
  - simpl. apply lookup_insert_eq.
Qed.

Lemma handleSubmit_success_effect_witness :
  ∃ w',
    handleSubmit (order built) "ana" "t2" (Shop.desk (Shop.shelf (of_int 1)) [])
    = (Ok (toast_success "Transação registrada com sucesso!"), w')
    ∧ stock "p1" (store w') = Some (of_int 1 - of_int 2)
    ∧ ∃ ms, inventory_movements (store w') = [] ++ ms
            ∧ length ms = 1%nat
            ∧ Forall (λ m, mv_created_by m = "ana" ∧ mv_type m = movement_out) ms.
Proof.
  destruct (handleSubmit (order built) "ana" "t2" (Shop.desk (Shop.shelf (of_int 1)) []))
    as [r w'] eqn:Hrun.
  assert (Hr : r = Ok (toast_success "Transação registrada com sucesso!")).
  { apply (f_equal fst) in Hrun. vm_compute in Hrun. symmetry. exact Hrun. }
  subst r. exists w'. split; [reflexivity|].
  destruct (handleSubmit_success_effect _ _ _ _ _ _ Hrun eq_refl) as (_ & _ & Hs & Hm).
  split; [|exact Hm].
  unfold stock. rewrite Hs. vm_compute. reflexivity.
Defined.

End NewTransactionScreenFacts.

(** * Properties of the inventory screen: new items, cards, stale cards *)

Module InventoryScreenFacts.
Import Schema Client InventoryPage Notions InventoryScreen.
Import ClientFacts InventoryFacts.

Lemma supabase_round_trip s : supabase s = round_trip s (exec s).
Proof. reflexivity. Qed.

(** [handleAddItem], outcome by outcome. *)
Lemma handleAddItem_run n id w :
  handleAddItem n id w =
    let w1 := {| store := store w;
                 sent := sent w ++ [insert_into_inventory_items id (row_of n)];
                 link := tail (link w) |} in
    if up (link w) then
      match insert_inventory_item_unique id (row_of n) (store w) with
      | Ok d => (Ok (toast_success "Item adicionado com sucesso!"),
                 {| store := d; sent := sent w1; link := link w1 |})
      | Err e => (Ok (toast_error_message (rejected e) "Erro ao adicionar item"), w1)
      end
    else (Ok (toast_error_message unreachable "Erro ao adicionar item"), w1).
Proof.
  unfold handleAddItem, try_catch, mbind, client_bind, mret, client_ret, round_trip.
  simpl. destruct (up (link w)); [|done].
  by destruct (insert_inventory_item_unique id (row_of n) (store w)).
Qed.

Lemma sku_taken_after_insert id r d s :
  inv_sku r = Some s → sku_taken (Some s) (Schema.Build_db (transactions d)
    (transaction_items d) (<[id := r]> (inventory_items d)) (inventory_movements d)) = true.
Proof.
  intros Hs. unfold sku_taken. simpl. apply bool_decide_eq_true_2.
  exists id, r. split; [apply lookup_insert_eq|done].
Qed.

(** X10.  An item added from the dialog is stored with the sku as typed,
    the empty text when the field was left alone, never null.  After it,
    the dialog cannot add another item with the same sku text: the database
    rejects it for the unique sku and nothing is stored.  So only one item
    can be added with the sku field left empty. *)
Theorem second_item_with_the_same_sku_is_rejected n1 id1 w t1 w1 n2 id2 :
  handleAddItem n1 id1 w = (Ok t1, w1) →
  is_success t1 = true →
  n_sku n2 = n_sku n1 →
  inventory_items (store w1) = <[id1 := row_of n1]> (inventory_items (store w))
  ∧ inv_sku (row_of n1) = Some (n_sku n1)
  ∧ ∃ e w2,
      handleAddItem n2 id2 w1 = (Ok (toast_error_message e "Erro ao adicionar item"), w2)
      ∧ store w2 = store w1
      ∧ (up (link w1) = true → e = rejected (unique_violation "sku")).
Proof.
  intros Hrun Hok Hsku. rewrite handleAddItem_run in Hrun. simpl in Hrun.
  destruct (up (link w)); [|by injection Hrun as <- <-].
  unfold insert_inventory_item_unique in Hrun.
  destruct (sku_taken (inv_sku (row_of n1)) (store w)); [by injection Hrun as <- <-|].
  unfold insert_inventory_item in Hrun.
  destruct (inventory_items (store w) !! id1); [by injection Hrun as <- <-|].
  injection Hrun as <- <-. cbn [store link sent inventory_items].
  split; [done|]. split; [done|].
  pose proof (sku_taken_after_insert id1 (row_of n1) (store w) (n_sku n2)) as Htaken.
  rewrite handleAddItem_run. cbv zeta. cbn [store link sent].
  destruct (up (tail (link w))).
  - unfold insert_inventory_item_unique.
    change (inv_sku (row_of n2)) with (Some (n_sku n2)).
    rewrite Htaken by (simpl; by rewrite Hsku).
    eexists _, _. split; [reflexivity|]. split; [done|]. done.
  - eexists _, _. split; [reflexivity|]. split; [done|]. done.
Qed.

Lemma second_item_with_the_same_sku_is_rejected_witness :
  ∃ w1,
    handleAddItem gel "p3" (Shop.desk (Shop.shelf (of_int 2)) [])
    = (Ok (toast_success "Item adicionado com sucesso!"), w1)
    ∧ n_sku oil = n_sku gel
    ∧ inv_sku (row_of gel) = Some ""
    ∧ ∃ w2,
        handleAddItem oil "p4" w1
        = (Ok (toast_error_message (rejected (unique_violation "sku"))
                 "Erro ao adicionar item"), w2)
        ∧ store w2 = store w1.
Proof.
  destruct (handleAddItem gel "p3" (Shop.desk (Shop.shelf (of_int 2)) []))
    as [r w1] eqn:Hrun.
  assert (Hr : r = Ok (toast_success "Item adicionado com sucesso!")).
  { apply (f_equal fst) in Hrun. vm_compute in Hrun. symmetry. exact Hrun. }
  assert (Hup : up (link w1) = true).
  { apply (f_equal snd) in Hrun. simpl in Hrun. rewrite <- Hrun. vm_compute. reflexivity. }
  subst r. exists w1. split; [reflexivity|]. split; [reflexivity|]. split; [reflexivity|].
  destruct (second_item_with_the_same_sku_is_rejected gel "p3" _ _ w1 oil "p4"
              Hrun eq_refl eq_refl) as (_ & _ & e & w2 & Hrun2 & Hst & He).
  rewrite (He Hup) in Hrun2. exists w2. split; [exact Hrun2|exact Hst].
Defined.

Lemma low_stock_line_cases item :
  low_stock_line item =
    match min_quantity item with
    | None => child_null
    | Some m =>
        if m =? 0 then child_number m
        else if quantity item <=? m then child_element "Estoque baixo!"
        else child_boolean false
    end.
Proof.
  unfold low_stock_line, and_then. destruct (min_quantity item) as [m|]; [|done].
  destruct (m =? 0) eqn:E; [by rewrite E|].
  by destruct (quantity item <=? m).
Qed.

(** X11.  The card of an item shows the low-stock line exactly when the
    item is counted in [lowStockItems], so the alert counts the cards that
    show it.  An item whose minimum is [0] gets neither: its card shows the
    number [0] in that place, and no other item's card does. *)
Theorem card_line_agrees_with_the_alert items :
  (∀ item, low_stock_line item = child_element "Estoque baixo!"
           ↔ is_low_stock item = true)
  ∧ length (filter (λ item, low_stock_line item = child_element "Estoque baixo!") items)
    = length (lowStockItems items)
  ∧ (∀ item, (∃ n, low_stock_line item = child_number n) ↔ min_quantity item = Some 0)
  ∧ (∀ item, min_quantity item = Some 0 →
       visible (low_stock_line item) = true ∧ is_low_stock item = false).
Proof.
  assert (Hiff : ∀ item, low_stock_line item = child_element "Estoque baixo!"
                         ↔ is_low_stock item = true).
  { intros item. rewrite low_stock_line_cases. unfold is_low_stock, truthy.
    destruct (min_quantity item) as [m|]; [|done].
    destruct (m =? 0); simpl; [done|]. by destruct (quantity item <=? m). }
  split; [exact Hiff|]. split; [|split].
  - unfold lowStockItems. f_equal. apply list_filter_iff. intros item. apply Hiff.
  - intros item. rewrite low_stock_line_cases.
    destruct (min_quantity item) as [m|]; [|split; [by intros [? ?]|done]].
    destruct (m =? 0) eqn:E.
    + apply Z.eqb_eq in E as ->. split; eauto.
    + apply Z.eqb_neq in E. split.
      * intros [n Hn]. by destruct (quantity item <=? m).
      * intros [= ->]. done.
  - intros item Hm. rewrite low_stock_line_cases. unfold is_low_stock, truthy.
    by rewrite Hm.
Qed.

(** X16.  Two movements entered against the same card, the second without
    a reload after the first, are both recorded as movements, but the item
    ends with the quantity the second one computed from the card: what the
    first one moved is lost from the stock. *)
Theorem stale_card_loses_the_first_movement it m1 m2 user w row :
  inventory_items (store w) !! id it = Some row →
  (0 < m_quantity m1)%Q → (0 <= newQuantity it m1)%Q →
  (0 < m_quantity m2)%Q → (0 <= newQuantity it m2)%Q →
  round_trips_reach 4 w →
  ∃ w1 w2,
    handleMovement (Some it) m1 user w
    = (Ok (toast_success "Movimentação registrada com sucesso!"), w1)
    ∧ handleMovement (Some it) m2 user w1
      = (Ok (toast_success "Movimentação registrada com sucesso!"), w2)
    ∧ inventory_items (store w2)
      = <[id it := set_inv_quantity (candidate it m2) row]> (inventory_items (store w))
    ∧ inventory_movements (store w2)
      = inventory_movements (store w)
        ++ [manual_movement it m1 user; manual_movement it m2 user].
Proof.
  intros Hrow HQ1 Hc1 HQ2 Hc2 Hup.
  assert (Hup1 : round_trips_reach 2 w).
  { unfold round_trips_reach in *. destruct (link w) as [|b1 [|b2 l]]; simpl in *; try done.
    inversion_clear Hup as [|? ? ? Hup']. inversion_clear Hup' as [|? ? ? Hup''].
    by repeat constructor. }
  destruct (handleMovement_recorded it m1 user w row HQ1 Hc1 Hrow Hup1)
    as (w1 & Hrun1 & Hinv1 & Hmov1 & Hsent1).
  assert (Hlink1 : link w1 = tail (tail (link w))).
  { destruct (handleMovement_outcome it m1 user w HQ1 Hc1) as (t & w' & Hrun & Hout).
    rewrite Hrun1 in Hrun. injection Hrun as <- <-. by inversion Hout. }
  assert (Hup2 : round_trips_reach 2 w1).
  { unfold round_trips_reach in *. rewrite Hlink1.
    destruct (link w) as [|b1 [|b2 [|b3 [|b4 l]]]]; simpl in *; try by constructor.
    - inversion_clear Hup as [|? ? ? Hup']. inversion_clear Hup' as [|? ? ? Hup''].
      inversion_clear Hup'' as [|? ? ? Hup3]. by repeat constructor.
    - inversion_clear Hup as [|? ? ? Hup']. inversion_clear Hup' as [|? ? ? Hup''].
      inversion_clear Hup'' as [|? ? ? Hup3]. inversion_clear Hup3.
      by repeat constructor. }
  assert (Hrow1 : inventory_items (store w1) !! id it
                  = Some (set_inv_quantity (candidate it m1) row)).
  { rewrite Hinv1. apply lookup_insert_eq. }
  destruct (handleMovement_recorded it m2 user w1 _ HQ2 Hc2 Hrow1 Hup2)
    as (w2 & Hrun2 & Hinv2 & Hmov2 & _).
  exists w1, w2. split; [done|]. split; [done|]. split.
  - rewrite Hinv2, Hinv1. by rewrite insert_insert_eq.
  - by rewrite Hmov2, Hmov1, <- app_assoc.
Qed.

Lemma stale_card_loses_the_first_movement_witness :
  ∃ w1 w2,
    handleMovement (Some (item_of_row "p1" (Shop.pomade (of_int 2) (Some 0))))
      (Shop.stock_in (of_int 3)) "ana" (Shop.desk (Shop.shelf (of_int 2)) [])
    = (Ok (toast_success "Movimentação registrada com sucesso!"), w1)
    ∧ handleMovement (Some (item_of_row "p1" (Shop.pomade (of_int 2) (Some 0))))
        (Shop.stock_out (of_int 1)) "ana" w1
      = (Ok (toast_success "Movimentação registrada com sucesso!"), w2)
    ∧ stock "p1" (store w2) = Some (of_int 2 - of_int 1)
    ∧ length (inventory_movements (store w2)) = 2%nat.
Proof.
  destruct (stale_card_loses_the_first_movement
              (item_of_row "p1" (Shop.pomade (of_int 2) (Some 0)))
              (Shop.stock_in (of_int 3)) (Shop.stock_out (of_int 1)) "ana"
              (Shop.desk (Shop.shelf (of_int 2)) []) (Shop.pomade (of_int 2) (Some 0)))
    as (w1 & w2 & H1 & H2 & Hinv & Hmov);
    try (vm_compute; (reflexivity || discriminate)); [constructor|].
  exists w1, w2. split; [exact H1|]. split; [exact H2|]. split.
  - unfold stock. rewrite Hinv. vm_compute. reflexivity.
  - rewrite Hmov. reflexivity.
Defined.

End InventoryScreenFacts.

(** * Properties of the dashboard *)

Module DashboardScreenFacts.
Import DashboardScreen.

Section Sorting.
Context {A : Type} (compare : A → A → Z) (key : A → Z).
Hypothesis compare_keys : ∀ a b, compare a b = key a - key b.

Lemma insert_sorted_perm x l : insert_sorted compare x l ≡ₚ x :: l.
Proof.
  induction l as [|y l IH]; simpl; [done|].
  destruct (compare x y <=? 0); [done|]. rewrite IH. apply perm_swap.
Qed.

Lemma sort_perm l : sort compare l ≡ₚ l.
Proof.
  unfold sort. induction l as [|x l IH]; simpl; [done|].
  by rewrite insert_sorted_perm, IH.
Qed.

Lemma insert_sorted_sorted x l :
  StronglySorted (λ a b, key a ≤ key b) l →
  StronglySorted (λ a b, key a ≤ key b) (insert_sorted compare x l).
Proof.
  induction 1 as [|y l Hl IH Hy]; simpl; [by repeat constructor|].
  rewrite compare_keys. destruct (key x - key y <=? 0) eqn:E.
  - apply Z.leb_le in E. constructor; [by constructor|].
    constructor; [lia|]. eapply Forall_impl; [exact Hy|]. simpl. intros z Hz. lia.
  - apply Z.leb_gt in E. constructor; [done|].
    rewrite insert_sorted_perm. constructor; [lia|done].
Qed.

Lemma sort_sorted l : StronglySorted (λ a b, key a ≤ key b) (sort compare l).
Proof.
  unfold sort. induction l as [|x l IH]; simpl; [constructor|].
  by apply insert_sorted_sorted.
Qed.

(** The first [n] of the sorted list: in order, and none of the others
    comes before any of them. *)
Lemma first_of_sorted n l :
  StronglySorted (λ a b, key a ≤ key b) (take n (sort compare l))
  ∧ take n (sort compare l) ++ drop n (sort compare l) ≡ₚ l
  ∧ ∀ x y, x ∈ take n (sort compare l) → y ∈ drop n (sort compare l) → key x ≤ key y.
Proof.
  pose proof (sort_sorted l) as Hs. rewrite <- (take_drop n (sort compare l)) in Hs.
  split; [by apply StronglySorted_app_1_l in Hs|]. split.
  - by rewrite take_drop, sort_perm.
  - intros x y Hx Hy. by apply (StronglySorted_app_1_elem_of _ _ _ _ _ Hs).
Qed.
End Sorting.

(** X13.  The dashboard lists at most five rows, all of them rows of the
    query whose quantity is at most their minimum (a missing minimum
    counting as [0]), in ascending order of quantity, and they are the
    lowest: no low row left out has a smaller quantity than a row listed.
    When the query failed the list is empty. *)
Theorem dashboard_lists_the_five_lowest allItems :
  (length (loadLowStockItems allItems) ≤ 5)%nat
  ∧ Forall (λ r, r ∈ default [] allItems
                 ∧ DashboardPage.quantity r
                   ≤ DashboardPage.Number (DashboardPage.min_quantity r))
           (loadLowStockItems allItems)
  ∧ StronglySorted (λ a b, DashboardPage.quantity a ≤ DashboardPage.quantity b)
      (loadLowStockItems allItems)
  ∧ (∃ rest,
       loadLowStockItems allItems ++ rest ≡ₚ DashboardPage.lowStock (default [] allItems)
       ∧ ∀ x y, x ∈ loadLowStockItems allItems → y ∈ rest →
                DashboardPage.quantity x ≤ DashboardPage.quantity y)
  ∧ (allItems = None → loadLowStockItems allItems = []).
Proof.
  unfold loadLowStockItems.
  set (low := DashboardPage.lowStock (default [] allItems)).
  set (cmp := λ a b, DashboardPage.quantity a - DashboardPage.quantity b).
  destruct (first_of_sorted cmp DashboardPage.quantity (λ a b, eq_refl) 5 low)
    as (Hsorted & Hperm & Hlow).
  split; [rewrite length_take; lia|]. split; [|split; [done|split]].
  - apply Forall_forall. intros r Hr.
    assert (Hin : r ∈ low).
    { rewrite <- Hperm. apply elem_of_app. by left. }
    unfold low, DashboardPage.lowStock in Hin.
    apply list_elem_of_filter in Hin as [Hq Hin]. done.
  - exists (drop 5 (sort cmp low)). done.
  - intros ->. done.
Qed.

(** X12.  The dashboard filter accepts every item the inventory screen
    counts as low stock; it also accepts, and the inventory screen does not,
    the items whose quantity is at most [0] while their minimum is [0] or
    missing, and no others. *)
Theorem dashboard_low_stock_covers_inventory_low_stock i row :
  DashboardPage.lowStock [stock_row row] = [stock_row row]
  ↔ InventoryPage.is_low_stock (Notions.item_of_row i row) = true
    ∨ (Schema.inv_quantity row ≤ 0
       ∧ (Schema.inv_min_quantity row = None ∨ Schema.inv_min_quantity row = Some 0)).
Proof.
  unfold DashboardPage.lowStock, InventoryPage.is_low_stock, InventoryPage.truthy.
  simpl. rewrite filter_cons, filter_nil. simpl.
  destruct (Schema.inv_min_quantity row) as [m|]; simpl.
  - case_decide as Hq; simpl.
    + split; [intros _|done]. destruct (m =? 0) eqn:E; simpl.
      * apply Z.eqb_eq in E as ->. right. eauto.
      * left. by apply Z.leb_le.
    + split; [done|]. intros [H|[H1 [H2|H2]]]; try done.
      * apply andb_true_iff in H as [_ H]. apply Z.leb_le in H. done.
      * injection H2 as ->. done.
  - case_decide as Hq; simpl.
    + split; [intros _|done]. right. eauto.
    + split; [done|]. intros [H|[H1 _]]; done.
Qed.

Lemma sorted_weaken {A} (R R' : A → A → Prop) l :
  (∀ a b, R a b → R' a b) → StronglySorted R l → StronglySorted R' l.
Proof.
  intros HR. induction 1 as [|x l Hl IH Hx]; constructor; [done|].
  eapply Forall_impl; [exact Hx|]. auto.
Qed.

Lemma tally_nil t : tally [] t = [(barber_id t, first_seen t)].
Proof. reflexivity. Qed.

Lemma tally_cons k e m t :
  tally ((k, e) :: m) t
  = if decide (k = barber_id t) then (barber_id t, counted e t) :: m
    else (k, e) :: tally m t.
Proof.
  unfold tally, get. simpl. destruct (decide (k = barber_id t)) as [->|Hne]; [done|].
  destruct (list_find (λ entry, entry.1 = barber_id t) m) as [[pos [k' e']]|]; done.
Qed.

Lemma tally_keys m t :
  (tally m t).*1 = if decide (barber_id t ∈ m.*1) then m.*1 else m.*1 ++ [barber_id t].
Proof.
  induction m as [|[k e] m IH].
  - rewrite tally_nil. rewrite decide_False by apply not_elem_of_nil. done.
  - rewrite tally_cons. destruct (decide (k = barber_id t)) as [->|Hne].
    + rewrite decide_True; [done|]. rewrite fmap_cons. apply elem_of_cons. by left.
    + rewrite !fmap_cons, IH. cbn [fst].
      destruct (decide (barber_id t ∈ m.*1)) as [Hin|Hout].
      * rewrite decide_True; [done|]. apply elem_of_cons. by right.
      * rewrite decide_False; [done|]. intros [?|?]%elem_of_cons; done.
Qed.

Lemma revenues_cons b l : revenues (b :: l) = revenue b + revenues l.
Proof. reflexivity. Qed.

Lemma tally_revenues m t : revenues (tally m t).*2 = revenues m.*2 + total t.
Proof.
  induction m as [|[k e] m IH].
  - rewrite tally_nil. unfold revenues. simpl. lia.
  - rewrite tally_cons. destruct (decide (k = barber_id t)).
    + rewrite !fmap_cons, !revenues_cons. simpl. lia.
    + rewrite !fmap_cons, !revenues_cons, IH. simpl. lia.
Qed.

Lemma revenue_of_snoc k seen t :
  revenue_of k (seen ++ [t])
  = revenue_of k seen + (if bool_decide (barber_id t = k) then total t else 0).
Proof. unfold revenue_of. induction seen as [|t' seen IH]; simpl; [lia|]. rewrite IH. lia. Qed.

Lemma count_of_snoc k seen t :
  count_of k (seen ++ [t])
  = count_of k seen + (if bool_decide (barber_id t = k) then 1 else 0).
Proof. unfold count_of. induction seen as [|t' seen IH]; simpl; [lia|]. rewrite IH. lia. Qed.

Lemma unseen_barber k seen :
  k ∉ barber_id <$> seen → revenue_of k seen = 0 ∧ count_of k seen = 0.
Proof.
  unfold revenue_of, count_of. induction seen as [|t seen IH]; simpl; [done|].
  intros Hout. apply not_elem_of_cons in Hout as [Hne Hout].
  destruct (IH Hout) as [-> ->]. rewrite bool_decide_eq_false_2 by done. done.
Qed.

Lemma tally_entries m t seen :
  NoDup m.*1 →
  Forall (λ entry, revenue entry.2 = revenue_of entry.1 seen
                   ∧ transactions entry.2 = count_of entry.1 seen) m →
  (barber_id t ∉ m.*1 → revenue_of (barber_id t) seen = 0 ∧ count_of (barber_id t) seen = 0) →
  Forall (λ entry, revenue entry.2 = revenue_of entry.1 (seen ++ [t])
                   ∧ transactions entry.2 = count_of entry.1 (seen ++ [t])) (tally m t).
Proof.
  induction m as [|[k e] m IH]; intros Hnd Hall Hnew.
  - rewrite tally_nil. constructor; [|constructor]. simpl.
    rewrite revenue_of_snoc, count_of_snoc, bool_decide_eq_true_2 by done.
    destruct Hnew as [-> ->]; [apply not_elem_of_nil|]. done.
  - rewrite tally_cons. simpl in Hnd. apply NoDup_cons in Hnd as [Hk Hnd].
    apply Forall_cons in Hall as [[Hr Hc] Hall]. simpl in Hr, Hc.
    destruct (decide (k = barber_id t)) as [->|Hne].
    + constructor.
      * simpl. rewrite revenue_of_snoc, count_of_snoc, bool_decide_eq_true_2 by done. lia.
      * apply Forall_forall. intros [k' e'] Hin. simpl.
        pose proof (proj1 (Forall_forall _ _) Hall _ Hin) as [Hr' Hc']. simpl in Hr', Hc'.
        assert (k' ≠ barber_id t).
        { intros ->. apply Hk. apply list_elem_of_fmap. by exists (barber_id t, e'). }
        rewrite revenue_of_snoc, count_of_snoc, bool_decide_eq_false_2 by done. lia.
    + constructor.
      * simpl. rewrite revenue_of_snoc, count_of_snoc, bool_decide_eq_false_2 by done. lia.
      * apply IH; [done|done|]. intros Hout. apply Hnew.
        intros [?|?]%elem_of_cons; done.
Qed.

Lemma tally_tallied m t seen : tallied m seen → tallied (tally m t) (seen ++ [t]).
Proof.
  intros (Hnd & Hkeys & Hall). split; [|split].
  - rewrite tally_keys. case_decide as Hin; [done|].
    apply NoDup_app. split; [done|]. split; [|apply NoDup_singleton].
    intros k Hk Hk'%list_elem_of_singleton. by subst k.
  - intros k. rewrite tally_keys, fmap_app, elem_of_app. simpl.
    rewrite list_elem_of_singleton. case_decide as Hin.
    + rewrite Hkeys. split; [auto|]. intros [?| ->]; [done|]. by apply Hkeys.
    + rewrite elem_of_app, Hkeys, list_elem_of_singleton. done.
  - apply tally_entries; [done|done|].
    intros Hout. apply unseen_barber. by rewrite <- Hkeys.
Qed.

Lemma fold_tally data : ∀ m seen,
  tallied m seen → tallied (fold_left tally data m) (seen ++ data).
Proof.
  induction data as [|t data IH]; intros m seen Hm; simpl.
  - by rewrite app_nil_r.
  - replace (seen ++ t :: data) with ((seen ++ [t]) ++ data) by (by rewrite <- app_assoc).
    apply IH. by apply tally_tallied.
Qed.

Lemma barberMap_tallied data : tallied (barberMap data) data.
Proof.
  apply (fold_tally data [] []). split; [constructor|]. split; [done|constructor].
Qed.

Lemma fold_tally_revenues data : ∀ m,
  revenues (fold_left tally data m).*2 = revenues m.*2 + totals data.
Proof.
  induction data as [|t data IH]; intros m; simpl.
  - unfold totals. simpl. lia.
  - rewrite IH, tally_revenues. unfold totals. simpl. lia.
Qed.

(** X14.  The ranking of the dashboard has at most five rows, in
    descending order of revenue.  Each row is one barber of the data, with
    the sum of that barber's totals as revenue and the number of that
    barber's transactions; no barber left out has a higher revenue than a
    row shown.  Before the cut to five, every barber of the data has exactly
    one entry and the revenues add up to the sum of all totals. *)
Theorem top_barbers_ranking data top :
  loadTopBarbers (Some data) = Some top →
  (length top ≤ 5)%nat
  ∧ StronglySorted (λ a b, revenue b ≤ revenue a) top
  ∧ (∀ b, b ∈ top →
       ∃ k, k ∈ barber_id <$> data
            ∧ revenue b = revenue_of k data ∧ transactions b = count_of k data)
  ∧ (∃ rest, top ++ rest ≡ₚ (barberMap data).*2
             ∧ ∀ x y, x ∈ top → y ∈ rest → revenue y ≤ revenue x)
  ∧ NoDup (barberMap data).*1
  ∧ (∀ k, k ∈ (barberMap data).*1 ↔ k ∈ barber_id <$> data)
  ∧ revenues (barberMap data).*2 = totals data.
Proof.
  intros [= <-].
  set (cmp := λ a b, revenue b - revenue a).
  destruct (first_of_sorted cmp (λ b, - revenue b) (λ a b, ltac:(unfold cmp; lia)) 5
              (barberMap data).*2) as (Hsorted & Hperm & Hlow).
  destruct (barberMap_tallied data) as (Hnd & Hkeys & Hall).
  split; [rewrite length_take; lia|]. split; [|split; [|split; [|split; [|split]]]].
  - eapply sorted_weaken; [|exact Hsorted]. simpl. intros a b H. lia.
  - intros b Hb.
    assert (Hin : b ∈ (barberMap data).*2).
    { rewrite <- Hperm. apply elem_of_app. by left. }
    apply list_elem_of_fmap in Hin as ([k e] & -> & Hin).
    pose proof (proj1 (Forall_forall _ _) Hall _ Hin) as [Hr Hc]. simpl in *.
    exists k. split; [|done]. apply Hkeys. apply list_elem_of_fmap. by exists (k, e).
  - exists (drop 5 (sort cmp (barberMap data).*2)). split; [done|].
    intros x y Hx Hy. specialize (Hlow x y Hx Hy). simpl in Hlow. lia.
  - done.
  - done.
  - unfold barberMap. rewrite fold_tally_revenues. unfold revenues. simpl. lia.
Qed.

Lemma top_barbers_ranking_witness :
  loadTopBarbers (Some month) = Some ranking
  ∧ StronglySorted (λ a b, revenue b ≤ revenue a) ranking
  ∧ revenues (barberMap month).*2 = totals month.
Proof.
  assert (Hrun : loadTopBarbers (Some month) = Some ranking) by (vm_compute; reflexivity).
  destruct (top_barbers_ranking month ranking Hrun) as (_ & Hs & _ & _ & _ & _ & Hsum).
  split; [exact Hrun|]. split; [exact Hs|exact Hsum].
Defined.

End DashboardScreenFacts.

(** * Properties of the report *)

Module ReportsScreenFacts.
Import Schema Client NewTransactionPage NewTransactionScreen ReportsScreen Ledger.
Import NewTransactionScreenFacts LedgerFacts.

Section Sums.
Context {A : Type} (g : A → Z).

Lemma fold_left_sum l : ∀ acc,
  fold_left (λ sum x, sum + g x) l acc = acc + foldr (λ x rest, g x + rest) 0 l.
Proof.
  induction l as [|x l IH]; intros acc; simpl; [lia|]. rewrite IH. lia.
Qed.

Lemma sum_perm l l' :
  l ≡ₚ l' → foldr (λ x rest, g x + rest) 0 l = foldr (λ x rest, g x + rest) 0 l'.
Proof. induction 1; simpl; lia. Qed.

Lemma sum_app l l' :
  foldr (λ x rest, g x + rest) 0 (l ++ l')
  = foldr (λ x rest, g x + rest) 0 l + foldr (λ x rest, g x + rest) 0 l'.
Proof. induction l as [|x l IH]; simpl; lia. Qed.
End Sums.

Lemma totalRevenue_sum rows :
  totalRevenue rows = foldr (λ t rest, r_total t + rest) 0 rows.
Proof. unfold totalRevenue. rewrite (fold_left_sum r_total). lia. Qed.

Lemma totalCommission_sum rows :
  totalCommission rows = foldr (λ t rest, row_commission t + rest) 0 rows.
Proof. unfold totalCommission. rewrite (fold_left_sum row_commission). lia. Qed.

Lemma lines_of_other tid id (new : list transaction_items_row) :
  Forall (λ r, ti_transaction_id r = tid) new → id ≠ tid →
  filter (λ r, ti_transaction_id r = id) new = [].
Proof.
  intros Hall Hne. induction Hall as [|r new Hr _ IH]; [done|].
  rewrite filter_cons_False by congruence. done.
Qed.

Lemma lines_of_own tid (new : list transaction_items_row) :
  Forall (λ r, ti_transaction_id r = tid) new →
  filter (λ r, ti_transaction_id r = tid) new = new.
Proof.
  intros Hall. induction Hall as [|r new Hr _ IH]; [done|].
  rewrite filter_cons_True by done. by rewrite IH.
Qed.

Lemma no_lines_of_unstored d tid :
  references_hold d → transactions d !! tid = None →
  filter (λ r, ti_transaction_id r = tid) (transaction_items d) = [].
Proof.
  intros [Hl _] Hnew. induction Hl as [|r l [Htx _] _ IH]; [done|].
  rewrite filter_cons_False; [done|]. intros Heq. rewrite Heq, Hnew in Htx.
  by destruct Htx.
Qed.

(** The report after a transaction and its lines were stored: the rows of
    before, and the new transaction if the filter shows its barber. *)
Lemma loadTransactions_after_insert f d d' tid h new :
  references_hold d →
  transactions d !! tid = None →
  Forall (λ r, ti_transaction_id r = tid) new →
  transactions d' = <[tid := h]> (transactions d) →
  transaction_items d' = transaction_items d ++ new →
  loadTransactions f d'
  ≡ₚ (if shows_barber f (t_barber_id h)
      then [ {| r_id := tid; r_total := t_total h; r_barber_id := t_barber_id h;
                r_transaction_items := new |} ]
      else [])
     ++ loadTransactions f d.
Proof.
  intros Href Hnew Hall Ht Hl. unfold loadTransactions. rewrite Ht.
  rewrite (map_to_list_insert _ _ _ Hnew), filter_cons.
  assert (Hold : report_row d'
                 <$> filter (λ entry, f = "all" ∨ t_barber_id entry.2 = f)
                       (map_to_list (transactions d))
                 = report_row d
                   <$> filter (λ entry, f = "all" ∨ t_barber_id entry.2 = f)
                         (map_to_list (transactions d))).
  { apply list_fmap_ext. intros n [id t] Hin. apply list_elem_of_lookup_2 in Hin.
    apply list_elem_of_filter in Hin as [_ Hin]. apply elem_of_map_to_list in Hin.
    unfold report_row. simpl. f_equal. rewrite Hl, filter_app.
    rewrite (lines_of_other tid id new Hall); [by rewrite app_nil_r|].
    intros Heq. rewrite Heq in Hin. congruence. }
  unfold shows_barber. simpl.
  destruct (decide (f = "all" ∨ t_barber_id h = f)) as [Hshow|Hshow].
  - rewrite bool_decide_eq_true_2 by done. rewrite fmap_cons, Hold. simpl.
    unfold report_row at 1. simpl.
    rewrite Hl, filter_app, (no_lines_of_unstored d tid Href Hnew), (lines_of_own tid new Hall).
    done.
  - rewrite bool_decide_eq_false_2 by done. by rewrite Hold.
Qed.

Lemma lines_commission tid items :
  fold_left (λ itemSum item, itemSum + ti_commission item * ti_quantity item)
    (itemsToInsert tid items) 0
  = calculateCommission items.
Proof.
  unfold calculateCommission, itemsToInsert.
  rewrite (fold_left_sum (λ item, ti_commission item * ti_quantity item)).
  rewrite (fold_left_sum (λ item, commission item * quantity item)).
  f_equal. induction items as [|item items IH]; simpl; [done|]. by rewrite IH.
Qed.

(** X15.  After a submit that succeeds, the report over all periods shows
    a revenue higher by the total of the form and commissions higher by the
    commission of the form, provided its barber filter shows the barber of
    the form; under another barber's filter both sums are as before. *)
Theorem report_totals_after_submit form user tid w t w' filterBarber :
  reachable (store w) →
  handleSubmit form user tid w = (Ok t, w') →
  is_success t = true →
  totalRevenue (loadTransactions filterBarber (store w'))
  = totalRevenue (loadTransactions filterBarber (store w))
    + (if shows_barber filterBarber (selectedBarberId form)
       then calculateTotal (items form) else 0)
  ∧ totalCommission (loadTransactions filterBarber (store w'))
    = totalCommission (loadTransactions filterBarber (store w))
      + (if shows_barber filterBarber (selectedBarberId form)
         then calculateCommission (items form) else 0).
Proof.
  intros Hreach Hrun Hok.
  pose proof (handleSubmit_success_effect _ _ _ _ _ _ Hrun Hok) as (Ht & Hl & _ & _).
  assert (Hnew : transactions (store w) !! tid = None).
  { destruct (classic_incomplete form) as [Hi|Hc].
    { unfold handleSubmit in Hrun. rewrite incomplete_form_stops in Hrun by done.
      by injection Hrun as <- <-. }
    rewrite handleSubmit_complete in Hrun by done.
    destruct (supabase (insert_into_transactions _ _) w) as [[[]|e] w1] eqn:E1;
      [|by injection Hrun as <- <-].
    apply ClientFacts.supabase_effect in E1 as (_ & _ & _ & Hex). simpl in Hex.
    unfold insert_transaction in Hex. by destruct (transactions (store w) !! tid). }
  pose proof (loadTransactions_after_insert filterBarber (store w) (store w') tid
                (header form user) (itemsToInsert tid (items form))
                (reachable_references_hold _ Hreach) Hnew
                (itemsToInsert_transaction_id tid (items form)) Ht Hl) as Hperm.
  rewrite !totalRevenue_sum, !totalCommission_sum.
  rewrite (sum_perm r_total _ _ Hperm), (sum_perm row_commission _ _ Hperm).
  rewrite !sum_app. simpl.
  destruct (shows_barber filterBarber (selectedBarberId form)); simpl.
  - unfold row_commission. simpl. rewrite lines_commission. lia.
  - lia.
Qed.

Lemma report_totals_after_submit_witness :
  ∃ w',
    handleSubmit (order built) "ana" "t2" (Shop.desk (Shop.shelf (of_int 2)) [])
    = (Ok (toast_success "Transação registrada com sucesso!"), w')
    ∧ totalRevenue (loadTransactions "all" (store w'))
      = totalRevenue (loadTransactions "all" (Shop.shelf (of_int 2))) + (2500 + 2500 * 2)
    ∧ totalCommission (loadTransactions "barber-2" (store w'))
      = totalCommission (loadTransactions "barber-2" (Shop.shelf (of_int 2))) + 0.
Proof.
  destruct (handleSubmit (order built) "ana" "t2" (Shop.desk (Shop.shelf (of_int 2)) []))
    as [r w'] eqn:Hrun.
  assert (Hr : r = Ok (toast_success "Transação registrada com sucesso!")).
  { apply (f_equal fst) in Hrun. vm_compute in Hrun. symmetry. exact Hrun. }
  subst r. exists w'. split; [reflexivity|].
  assert (Hreach : reachable (store (Shop.desk (Shop.shelf (of_int 2)) []))).
  { apply SchemaFacts.shelf_reachable. }
  split.
  - exact (proj1 (report_totals_after_submit _ _ _ _ _ _ "all" Hreach Hrun eq_refl)).
  - exact (proj2 (report_totals_after_submit _ _ _ _ _ _ "barber-2" Hreach Hrun eq_refl)).
Defined.

End ReportsScreenFacts.
(** * Properties of the two paths to the stock together *)

Module TillFacts.
Import Schema Client InventoryPage Notions Ledger Till.
Import NumberFacts ClientFacts SchemaFacts LedgerFacts InventoryFacts.

Lemma movements_of_app i d ms :
  filter (λ r, mv_item_id r = i) (inventory_movements d ++ ms)
  = movements_of i d ++ filter (λ r, mv_item_id r = i) ms.
Proof. unfold movements_of. apply filter_app. Qed.

(** The movements an accepted statement writes for item [i] take out what
    its lines sell of [i]. *)
Lemma sale_movements_signed i rows : ∀ d d',
  insert_transaction_items rows d = Ok d' →
  signed_sum (filter (λ r, mv_item_id r = i) (sale_movements d rows)) = - of_int (sold i rows).
Proof.
  induction rows as [|r rows IH]; intros d d' H; simpl in H; [done|].
  destruct (insert_transaction_item r d) as [d1|e] eqn:E; [|done]. simpl in H.
  pose proof (insert_transaction_item_effect _ _ _ E) as (Ht & _ & _ & _).
  apply IH in H. rewrite (sale_movements_transactions d d1 rows Ht) in H.
  rewrite (sale_movements_cons d r rows), filter_app, signed_sum_app, H.
  rewrite (sold_cons i r rows), of_int_add.
  apply insert_transaction_item_inv in E as (Hc & [tx Htx] & _ & _).
  destruct (ti_type r) eqn:Hty.
  - rewrite sale_movements_service, sold_service by done. simpl.
    unfold signed_sum, of_int. simpl. lia.
  - destruct (product_line_has_item r Hc Hty) as [item Hit].
    rewrite (sale_movements_product d r item tx) by done.
    destruct (decide (item = i)) as [<-|Hne].
    + rewrite sold_hit by done. rewrite filter_cons_True by done.
      rewrite filter_nil, signed_sum_singleton. unfold signed. simpl. lia.
    + rewrite (sold_miss i r item) by done. rewrite filter_cons_False by done.
      rewrite filter_nil. unfold signed_sum, of_int. simpl. lia.
Qed.

Lemma statement_keeps_unaccounted i rows d d' :
  insert_transaction_items rows d = Ok d' → unaccounted i d' = unaccounted i d.
Proof.
  intros H. pose proof (sale_movements_signed i rows d d' H) as Hsigned.
  apply statement_sells_what_its_lines_sell in H as (_ & _ & Hs & Hm).
  unfold unaccounted, movements_of. rewrite Hs, Hm, movements_of_app, signed_sum_app, Hsigned.
  destruct (inventory_items d !! i) as [row|]; simpl; [|done].
  f_equal. unfold movements_of. lia.
Qed.

Lemma unaccounted_same i d d' :
  inventory_items d' = inventory_items d →
  inventory_movements d' = inventory_movements d →
  unaccounted i d' = unaccounted i d.
Proof. intros Hi Hm. unfold unaccounted, movements_of. by rewrite Hi, Hm. Qed.

Lemma submit_keeps_unaccounted i form user key w :
  unaccounted i (store (NewTransactionPage.handleSubmit form user key w).2)
  = unaccounted i (store w).
Proof.
  destruct (NewTransactionScreenFacts.classic_incomplete form) as [Hi|Hc].
  { unfold NewTransactionPage.handleSubmit.
    by rewrite NewTransactionScreenFacts.incomplete_form_stops. }
  rewrite NewTransactionScreenFacts.handleSubmit_complete by done.
  destruct (supabase (insert_into_transactions _ _) w) as [[[]|e] w1] eqn:E1.
  - apply supabase_effect in E1 as (_ & _ & _ & Hex1). simpl in Hex1.
    unfold insert_transaction in Hex1.
    destruct (transactions (store w) !! key); [done|]. injection Hex1 as Hd1.
    assert (H1 : unaccounted i (store w1) = unaccounted i (store w)).
    { apply unaccounted_same; by rewrite <- Hd1. }
    destruct (supabase (insert_into_transaction_items _) w1) as [[[]|e] w2] eqn:E2.
    + apply supabase_effect in E2 as (_ & _ & _ & Hex2). simpl in Hex2. simpl.
      by rewrite (statement_keeps_unaccounted i _ _ _ Hex2).
    + apply supabase_effect in E2 as (_ & _ & Hst). simpl. by rewrite Hst.
  - apply supabase_effect in E1 as (_ & _ & Hst). simpl. by rewrite Hst.
Qed.

Lemma move_keeps_unaccounted i i' m user w :
  two_decimals (m_quantity m) = true →
  (∃ t, (handleMovement (select_item i' (store w)) m user w).1 = Ok t ∧ is_success t = true)
  ∨ inventory_movements (store (handleMovement (select_item i' (store w)) m user w).2)
    = inventory_movements (store w) →
  unaccounted i (store (handleMovement (select_item i' (store w)) m user w).2)
  = unaccounted i (store w).
Proof.
  intros Htwo Hwhole.
  destruct (handleMovement_cases (select_item i' (store w)) m user w)
    as [[msg Hstop] | (it & t & w1 & Hsel & Hnew & Hrun & Hout)].
  - by rewrite Hstop.
  - rewrite Hrun in *. simpl in *. destruct Hout as [e | Hfk _ _ | Hfk _ _]; simpl in *.
    + done.
    + exfalso. destruct Hwhole as [(t & [= <-] & Hok)|Hsame]; [done|].
      apply (f_equal length) in Hsame. rewrite length_app in Hsame. simpl in Hsame. lia.
    + unfold select_item in Hsel.
      destruct (inventory_items (store w) !! i') as [row|] eqn:Hrow; [|done].
      injection Hsel as <-. simpl in *.
      unfold unaccounted, movements_of. simpl. rewrite filter_app.
      destruct (decide (i' = i)) as [->|Hne].
      * rewrite lookup_alter_eq, Hrow. simpl.
        rewrite filter_cons_True by done. rewrite filter_nil, signed_sum_app,
          signed_sum_singleton.
        rewrite (candidate_exact _ _ Htwo).
        unfold signed. simpl. f_equal. destruct (type m); lia.
      * rewrite lookup_alter_ne by done.
        rewrite filter_cons_False by done. by rewrite filter_nil, app_nil_r.
Qed.

(** X19.  Over a day of submitted transactions and entered movements, each
    movement of a quantity of at most two decimals and entered against a
    freshly loaded card, the difference between the stock of an item and
    the signed sum of its movement rows never changes, whatever fails on
    the way, as long as no movement stops between its two writes: sales
    through the trigger and manual movements keep the same books. *)
Theorem stock_stays_accounted acts : ∀ w i,
  in_hundredths acts →
  unbroken acts w → unaccounted i (store (day acts w)) = unaccounted i (store w).
Proof.
  intros w i Htwo. revert w.
  induction Htwo as [|a acts Ha2 Hacts2 IH]; intros w Hacts; simpl; [done|].
  destruct Hacts as [Ha Hacts]. rewrite (IH _ Hacts).
  destruct a as [form user key|i' m user]; simpl.
  - apply submit_keeps_unaccounted.
  - by apply move_keeps_unaccounted.
Qed.

Lemma stock_stays_accounted_witness :
  in_hundredths today
  ∧ unbroken today (Shop.desk (Shop.shelf (of_int 2)) [])
  ∧ unaccounted "p1" (store (day today (Shop.desk (Shop.shelf (of_int 2)) []))) = Some (of_int 2)
  ∧ stock "p1" (store (day today (Shop.desk (Shop.shelf (of_int 2)) []))) = Some (of_int 3).
Proof.
  assert (Htwo : in_hundredths today) by (repeat constructor).
  assert (Hu : unbroken today (Shop.desk (Shop.shelf (of_int 2)) [])).
  { simpl. split; [done|]. split; [left; eexists; split; vm_compute; reflexivity|].
    split; [right; vm_compute; reflexivity|done]. }
  split; [exact Htwo|]. split; [exact Hu|]. split.
  - rewrite (stock_stays_accounted today _ "p1" Htwo Hu). vm_compute. reflexivity.
  - vm_compute. reflexivity.
Defined.

(** X17.  A movement entered against the card of an item that is no
    longer stored passes the guards, but the insert of the movement is
    rejected for its foreign key: the error is shown, nothing is stored and
    the quantity update is never sent. *)
Theorem movement_for_a_missing_item_is_rejected it m user w :
  inventory_items (store w) !! id it = None →
  (0 < m_quantity m)%Q → (0 <= newQuantity it m)%Q →
  up (link w) = true →
  ∃ w',
    handleMovement (Some it) m user w
    = (Ok (toast_error_message (rejected (foreign_key_violation "item_id"))
             "Erro ao registrar movimentação"), w')
    ∧ store w' = store w
    ∧ sent w' = sent w ++ [insert_into_inventory_movements (manual_movement it m user)].
Proof.
  intros Hgone HQ Hnew Hup. rewrite handleMovement_past_guards by done.
  rewrite (supabase_rejected _ w (foreign_key_violation "item_id")); [|done|].
  - eexists. split; [reflexivity|]. done.
  - simpl. unfold insert_movement. simpl. by rewrite Hgone.
Qed.

Lemma movement_for_a_missing_item_is_rejected_witness :
  ∃ w',
    handleMovement (Some (item_of_row "p9" (Shop.pomade (of_int 2) (Some 0))))
      (Shop.stock_in (of_int 3)) "ana" (Shop.desk (Shop.shelf (of_int 2)) [])
    = (Ok (toast_error_message (rejected (foreign_key_violation "item_id"))
             "Erro ao registrar movimentação"), w')
    ∧ store w' = Shop.shelf (of_int 2)
    ∧ length (sent w') = 1%nat.
Proof.
  destruct (movement_for_a_missing_item_is_rejected
              (item_of_row "p9" (Shop.pomade (of_int 2) (Some 0)))
              (Shop.stock_in (of_int 3)) "ana" (Shop.desk (Shop.shelf (of_int 2)) []))
    as (w' & Hrun & Hst & Hsent); try (vm_compute; (reflexivity || discriminate)).
  exists w'. split; [exact Hrun|]. split; [exact Hst|]. rewrite Hsent. reflexivity.
Defined.

(** X18.  The new-transaction form offers exactly the stored items whose
    quantity is above zero, each with its stored quantity.  So after an
    accepted sale of [Q] units of an item that had [S], the item is still
    offered exactly when [Q] is below [S]. *)
Theorem products_offered_have_stock d :
  (∀ p, p ∈ loadProducts d ↔
        ∃ row, inventory_items d !! NewTransactionScreen.p_id p = Some row
               ∧ 0 < inv_quantity row
               ∧ NewTransactionScreen.p_name p = inv_name row
               ∧ NewTransactionScreen.p_quantity p = inv_quantity row)
  ∧ (∀ r d' item row,
       ti_type r = PRODUCT → ti_inventory_item_id r = Some item →
       inventory_items d !! item = Some row →
       insert_transaction_item r d = Ok d' →
       (item ∈ NewTransactionScreen.p_id <$> loadProducts d'
        ↔ of_int (ti_quantity r) < inv_quantity row)).
Proof.
  assert (Hiff : ∀ d p, p ∈ loadProducts d ↔
            ∃ row, inventory_items d !! NewTransactionScreen.p_id p = Some row
                   ∧ 0 < inv_quantity row
                   ∧ NewTransactionScreen.p_name p = inv_name row
                   ∧ NewTransactionScreen.p_quantity p = inv_quantity row).
  { clear d. intros d p. unfold loadProducts. rewrite list_elem_of_fmap. split.
    - intros ([i row] & -> & Hin). apply list_elem_of_filter in Hin as [Hq Hin].
      apply elem_of_map_to_list in Hin. simpl in *. eauto.
    - intros (row & Hrow & Hq & Hn & Hqty). exists (NewTransactionScreen.p_id p, row).
      split.
      + destruct p. simpl in *. by subst.
      + apply list_elem_of_filter. split; [done|]. by apply elem_of_map_to_list. }
  split; [apply Hiff|].
  intros r d' item row Hty Hit Hrow H.
  destruct (product_sale_moves_stock_aux r d d' item row Hty Hit Hrow H)
    as (tx & _ & Hs & _ & _).
  rewrite list_elem_of_fmap. split.
  - intros (p & -> & Hp). apply Hiff in Hp as (row' & Hrow' & Hq & _).
    rewrite Hs in Hrow'. injection Hrow' as <-. simpl in Hq. lia.
  - intros Hlt.
    exists {| NewTransactionScreen.p_id := item;
              NewTransactionScreen.p_name := inv_name row;
              NewTransactionScreen.p_quantity := inv_quantity row - of_int (ti_quantity r) |}.
    split; [done|]. apply Hiff. simpl. eexists. split; [exact Hs|]. simpl.
    repeat split. lia.
Qed.

Lemma products_offered_have_stock_witness :
  insert_transaction_item Shop.sale (Shop.shelf (of_int 7)) = Ok (Shop.after_sale (of_int 7))
  ∧ ("p1" ∈ NewTransactionScreen.p_id <$> loadProducts (Shop.after_sale (of_int 7))
     ↔ of_int 5 < of_int 7).
Proof.
  assert (H : insert_transaction_item Shop.sale (Shop.shelf (of_int 7))
              = Ok (Shop.after_sale (of_int 7))) by (vm_compute; reflexivity).
  split; [exact H|].
  exact (proj2 (products_offered_have_stock (Shop.shelf (of_int 7)))
           Shop.sale (Shop.after_sale (of_int 7)) "p1" (Shop.pomade (of_int 7) (Some 0))
           eq_refl eq_refl eq_refl H).
Defined.

End TillFacts.
